(** * Refine synthesis tool: a shallow embedding of
      [response /refine_synthesis_tool.py] and the properties of its
      token estimator, relevance prioritizer, batch planner and
      refine orchestrator. *)

From Stdlib Require Import ZArith List Bool Ascii String DecimalString Lia.
From Stdlib Require Import Floats.SpecFloat.
From stdpp Require Import base decidable list sorting strings gmap.

Import ListNotations.
Local Open Scope string_scope.
Local Open Scope list_scope.
Local Open Scope Z_scope.

(* ===================================================================== *)
(** * Python strings: [str.split()], [str.lower()], [str.join] *)
(* ===================================================================== *)

(** Text is modelled as [string], a sequence of code points below 256. *)
Module PyStr.

(** [str.isspace] on one code point below 256: tab, line feed, vertical
    tab, form feed, carriage return, the four separators 28..31, space,
    NEL (133) and no-break space (160). *)
Definition isspace (c : ascii) : bool :=
  let n := nat_of_ascii c in
  ((9 <=? n) && (n <=? 13) || (28 <=? n) && (n <=? 32)
   || (n =? 133) || (n =? 160))%nat.

(** [str.lower] on one code point below 256: [A-Z] and the Latin-1
    capitals 192..222 (the multiplication sign 215 apart). *)
Definition lower_char (c : ascii) : ascii :=
  let n := nat_of_ascii c in
  if ((65 <=? n) && (n <=? 90)
      || (192 <=? n) && (n <=? 222) && negb (n =? 215))%nat
  then ascii_of_nat (n + 32) else c.

Fixpoint lower (s : string) : string :=
  match s with
  | EmptyString => EmptyString
  | String c s' => String (lower_char c) (lower s')
  end.

(** The scan behind [str.split()] with no separator: [cur] is the word
    being read, in reverse; runs of whitespace separate words and never
    yield an empty word. *)
Fixpoint split_aux (s : string) (cur : list ascii) : list string :=
  match s with
  | EmptyString =>
      match cur with
      | [] => []
      | _ => [string_of_list_ascii (rev cur)]
      end
  | String c s' =>
      if isspace c then
        match cur with
        | [] => split_aux s' []
        | _ => string_of_list_ascii (rev cur) :: split_aux s' []
        end
      else split_aux s' (c :: cur)
  end.

Definition split (s : string) : list string := split_aux s [].

(** [sep.join(parts)]. *)
Definition join (sep : string) (parts : list string) : string :=
  String.concat sep parts.

End PyStr.

(* ===================================================================== *)
(** * Python floats: IEEE 754 binary64 *)
(* ===================================================================== *)

Module Float64.

Definition prec : Z := 53.
Definition emax : Z := 1024.

Definition float := spec_float.

Definition add : float -> float -> float := SFadd prec emax.
Definition mul : float -> float -> float := SFmul prec emax.

(** Conversion of a Python [int] to [float] (round to nearest, ties to
    even). *)
Definition of_Z (n : Z) : float := binary_normalize prec emax n 0 false.

(** The literal [1.33]: the binary64 number nearest to 133/100, that is
    5989787504402760 * 2^-52. *)
Definition lit_1_33 : float := S754_finite false 5989787504402760 (-52).

(** Python compares a [float] with an [int] exactly, without converting
    the [int]; [None] when the float is a NaN (every ordering test is
    then false). *)
Definition compare_Z (x : float) (n : Z) : option comparison :=
  match x with
  | S754_nan => None
  | S754_infinity s => Some (if s then Lt else Gt)
  | S754_zero _ => Some (0 ?= n)
  | S754_finite s m e =>
      let v := if s then Z.neg m else Z.pos m in
      Some (if 0 <=? e then (v * 2 ^ e ?= n) else (v ?= n * 2 ^ (- e)))
  end.

(** [x > n] *)
Definition gtb_Z (x : float) (n : Z) : bool :=
  match compare_Z x n with Some Gt => true | _ => false end.

(** [x <= n] *)
Definition leb_Z (x : float) (n : Z) : bool :=
  match compare_Z x n with Some (Lt | Eq) => true | _ => false end.

(** [x < n] *)
Definition ltb_Z (x : float) (n : Z) : bool :=
  match compare_Z x n with Some Lt => true | _ => false end.

(** [x <= y] on floats. *)
Definition leb : float -> float -> bool := SFleb.

(** The [int] [0] an accumulator starts from, in a float sum. *)
Definition zero : float := S754_zero false.

(** The operations of C on a [double] that the builtin [sum] uses:
    [x - y], [fabs(x)], [x >= y], [isfinite(x)] and [x != 0.0]. *)
Definition sub : float -> float -> float := SFsub prec emax.
Definition abs : float -> float := SFabs.
Definition geb (x y : float) : bool := SFleb y x.

Definition is_finite (x : float) : bool :=
  match x with
  | S754_zero _ | S754_finite _ _ _ => true
  | _ => false
  end.

Definition nonzero (x : float) : bool :=
  match x with
  | S754_zero _ => false
  | _ => true
  end.

End Float64.

(** Predicates on binary64 values used to state their properties. *)
Module Float64Spec.
Import Float64.

(** Positive zero, positive finite numbers and positive infinity. *)
Definition nonneg (x : float) : bool :=
  match x with
  | S754_zero false | S754_infinity false | S754_finite false _ _ => true
  | _ => false
  end.

(** The location of a remainder [low] below [K]: exact, or below, at or
    above the half. *)
Definition loc_of (low K : Z) : location :=
  if low =? 0 then loc_Exact else loc_Inexact (2 * low ?= K).

(** [mrs] is [M] shifted right by [k] digits, with remainder [low]. *)
Record shifted (M k : Z) (mrs : shr_record) (low : Z) : Prop := {
  shifted_nonneg : 0 <= shr_m mrs;
  shifted_rem : 0 <= low < 2 ^ k;
  shifted_eq : M = shr_m mrs * 2 ^ k + low;
  shifted_loc : loc_of_shr_record mrs = loc_of low (2 ^ k)
}.

(** [m'] is [M / K] rounded to nearest, ties to even. *)
Record nearest_even (M K m' : Z) : Prop := {
  ne_below : (2 * m' - 1) * K <= 2 * M;
  ne_above : 2 * M <= (2 * m' + 1) * K;
  ne_tie_above : 2 * M = (2 * m' + 1) * K -> Z.even m' = true;
  ne_tie_below : 2 * M = (2 * m' - 1) * K -> Z.even m' = true
}.

Definition two52 : Z := 4503599627370496.
Definition two53 : Z := 9007199254740992.

(** The binary64 number of mantissa [m] (between [2^52] and [2^53], the
    latter after a carry) and exponent [t]. *)
Definition pack (m t : Z) : spec_float :=
  if m <? two53 then
    if t <=? 971 then S754_finite false (Z.to_pos m) t
    else S754_infinity false
  else
    if t + 1 <=? 971 then S754_finite false 4503599627370496 (t + 1)
    else S754_infinity false.

Definition normal (m : positive) (e : Z) : Prop :=
  two52 <= Z.pos m < two53 /\ -1074 <= e.

(** [x <= y] for positive normal numbers and infinity, read off the
    exponents and the mantissas. *)
Definition normal_le (x y : spec_float) : Prop :=
  match x, y with
  | S754_finite false m1 e1, S754_finite false m2 e2 =>
      normal m1 e1 /\ normal m2 e2
      /\ (e1 < e2 \/ (e1 = e2 /\ Z.pos m1 <= Z.pos m2))
  | S754_finite false m1 e1, S754_infinity false => normal m1 e1
  | S754_infinity false, S754_infinity false => True
  | _, _ => False
  end.

End Float64Spec.

(* ===================================================================== *)
(** * RefineConfig *)
(* ===================================================================== *)

Record RefineConfig := {
  model_name : string;
  max_tokens_per_request : Z;
  response_reserve_tokens : Z;
  prompt_overhead_tokens : Z;
  average_chunk_tokens : Z;
  temperature : Float64.float
}.

Definition max_content_tokens (c : RefineConfig) : Z :=
  max_tokens_per_request c - response_reserve_tokens c
  - prompt_overhead_tokens c.

(** Raised exceptions of the modelled code. *)
Inductive PyExc := ZeroDivisionError | IndexError.

(** [a // b] on Python ints. *)
Definition floordiv (a b : Z) : PyExc + Z :=
  if b =? 0 then inl ZeroDivisionError else inr (a / b).

Definition chunks_per_batch (c : RefineConfig) : PyExc + Z :=
  floordiv (max_content_tokens c) (average_chunk_tokens c).

(** The dataclass defaults; [temperature] 0.1 is 7205759403792794 * 2^-56. *)
Definition default_config : RefineConfig := {|
  model_name := "gemini-1.5-pro";
  max_tokens_per_request := 1000000;
  response_reserve_tokens := 4000;
  prompt_overhead_tokens := 1000;
  average_chunk_tokens := 530;
  temperature := S754_finite false 7205759403792794 (-56)
|}.

(* ===================================================================== *)
(** * RefineSynthesisTool: the pure components *)
(* ===================================================================== *)

(** [len(text.split()) * 1.33] *)
Definition estimate_tokens (text : string) : Float64.float :=
  Float64.mul (Float64.of_Z (Z.of_nat (length (PyStr.split text))))
              Float64.lit_1_33.

(** ** prioritize_chunks *)

Definition word_set (s : string) : gset string :=
  list_to_set (PyStr.split (PyStr.lower s)).

Definition relevance_score (query_keywords : gset string) (chunk : string)
  : nat :=
  size (query_keywords ∩ word_set chunk).

(** [sorted(l, key=..., reverse=True)]: a stable sort, descending in the
    key.  [insert_desc x l] puts [x], which stood before every element of
    [l], in front of the first element whose key is not above its own. *)
Section Sorted.
Context {A : Type} (key : A -> nat).

Fixpoint insert_desc (x : A) (l : list A) : list A :=
  match l with
  | [] => [x]
  | y :: l' =>
      if (key x <? key y)%nat then y :: insert_desc x l'
      else x :: y :: l'
  end.

Fixpoint sorted_reverse (l : list A) : list A :=
  match l with
  | [] => []
  | x :: l' => insert_desc x (sorted_reverse l')
  end.
End Sorted.

Definition prioritize_chunks (chunks : list string) (user_query : string)
  : list string :=
  let query_keywords := word_set user_query in
  let scored_chunks :=
    map (fun chunk => (chunk, relevance_score query_keywords chunk)) chunks in
  map fst (sorted_reverse snd scored_chunks).

(** ** create_batches *)

(** The loop state: the closed batches, the open batch and its running
    token count. *)
Record BatchState := {
  batches : list (list string);
  current_batch : list string;
  current_tokens : Float64.float
}.

Definition batch_step (max_content : Z) (st : BatchState) (chunk : string)
  : BatchState :=
  let chunk_tokens := estimate_tokens chunk in
  if Float64.gtb_Z (Float64.add (current_tokens st) chunk_tokens) max_content
     && negb (bool_decide (current_batch st = []))
  then {| batches := batches st ++ [current_batch st];
          current_batch := [chunk];
          current_tokens := chunk_tokens |}
  else {| batches := batches st;
          current_batch := current_batch st ++ [chunk];
          current_tokens := Float64.add (current_tokens st) chunk_tokens |}.

Definition batch_finish (st : BatchState) : list (list string) :=
  match current_batch st with
  | [] => batches st
  | _ => batches st ++ [current_batch st]
  end.

Definition batch_init : BatchState :=
  {| batches := []; current_batch := []; current_tokens := Float64.zero |}.

Definition create_batches (cfg : RefineConfig) (chunks : list string)
  : list (list string) :=
  batch_finish (fold_left (batch_step (max_content_tokens cfg)) chunks batch_init).

(** The estimates added from left to right starting at [0], the way
    [create_batches] adds them into [current_tokens]: the running count of
    a batch. *)
Definition total_estimate (chunks : list string) : Float64.float :=
  fold_left Float64.add (map estimate_tokens chunks) Float64.zero.

(** ** The builtin [sum] *)

(** [sum] on floats is not the same function on every interpreter: up to
    CPython 3.11 it adds the items from left to right; from CPython 3.12
    on it carries a compensation term for the rounding errors (Neumaier's
    summation) and adds it to the result at the end. *)
Inductive Interpreter :=
| CPython_3_11   (* CPython up to 3.11 *)
| CPython_3_12.  (* CPython 3.12 and later *)

(** One step of the compensated sum: [hi] is the running sum, [lo] the
    compensation. *)
Definition cs_add (total : Float64.float * Float64.float)
    (x : Float64.float) : Float64.float * Float64.float :=
  let '(hi, lo) := total in
  let t := Float64.add hi x in
  if Float64.geb (Float64.abs hi) (Float64.abs x)
  then (t, Float64.add lo (Float64.add (Float64.sub hi t) x))
  else (t, Float64.add lo (Float64.add (Float64.sub x t) hi)).

(** The result of the compensated sum: the compensation is added unless
    it is zero, infinite or a NaN. *)
Definition cs_to_double (total : Float64.float * Float64.float)
  : Float64.float :=
  let '(hi, lo) := total in
  if Float64.nonzero lo && Float64.is_finite lo
  then Float64.add hi lo else hi.

(** [sum(xs)] for floats [xs]: the [int] [0] for no item; the first item
    is added to the [int] [0], and the others to that float. *)
Definition py_sum (py : Interpreter) (xs : list Float64.float)
  : Float64.float :=
  match py with
  | CPython_3_11 => fold_left Float64.add xs Float64.zero
  | CPython_3_12 =>
      match xs with
      | [] => Float64.zero
      | x :: rest =>
          cs_to_double
            (fold_left cs_add rest (Float64.add Float64.zero x, Float64.zero))
      end
  end.

(** [sum(self.estimate_tokens(chunk) for chunk in chunks)] *)
Definition sum_estimates (py : Interpreter) (chunks : list string)
  : Float64.float :=
  py_sum py (map estimate_tokens chunks).

(** ** Prompts *)

(** [str(n)] for a non-negative [int]. *)
Definition str_of_nat (n : nat) : string :=
  NilEmpty.string_of_uint (Nat.to_uint n).

Definition chunk_separator : string := "

---CHUNK SEPARATOR---

".

Definition create_initial_prompt (user_query : string) (chunks : list string)
  (total_batches : nat) : string :=
  let chunks_text := PyStr.join chunk_separator chunks in
  ("You are a document analysis expert. Analyze the retrieved content and provide a comprehensive response to the user's query.

USER QUERY: " ++ user_query ++ "

RETRIEVED CONTENT (Batch 1 of " ++ str_of_nat total_batches ++ "):
" ++ chunks_text ++ "

INSTRUCTIONS:
1. Provide a thorough, well-structured response addressing the user's query
2. Use specific information from the retrieved content with citations where appropriate
3. Structure your response with clear headings and bullet points if helpful
4. Include relevant examples, definitions, or explanations
5. This is batch 1 of " ++ str_of_nat total_batches ++ " - additional content will follow to refine this response
6. Focus on accuracy and completeness based on the available content

Generate your comprehensive initial response:")%string.

Definition create_refine_prompt (user_query current_response : string)
  (new_chunks : list string) (batch_num total_batches : nat) : string :=
  let new_content := PyStr.join chunk_separator new_chunks in
  ("You are refining a response with additional retrieved content. Improve and expand the current response using the new information.

USER QUERY: " ++ user_query ++ "

CURRENT RESPONSE:
" ++ current_response ++ "

NEW RETRIEVED CONTENT (Batch " ++ str_of_nat batch_num ++ " of "
   ++ str_of_nat total_batches ++ "):
" ++ new_content ++ "

INSTRUCTIONS:
1. Refine the current response by incorporating valuable new information
2. Correct any inconsistencies if new content contradicts previous information
3. Add important details, examples, or clarifications from the new content
4. Maintain the overall structure and coherent flow
5. Remove redundant information but ensure completeness
6. Integrate new citations or references appropriately
7. Keep the response focused on the user's query

Provide the refined and improved response:")%string.

(* ===================================================================== *)
(** * The orchestrator and its effects *)
(* ===================================================================== *)

(** What one call of [model.generate_content] does: it returns a response
    with its [text], or raises. *)
Inductive GenOutcome :=
| Text (text : string)
| Raised (message : string).

(** One entry of [processing_log].  [processing_time] is the difference of
    two clock readings (kept in the clock's unit). *)
Record StepRecord := {
  batch_number : nat;
  chunk_count : nat;
  processing_time : Z;
  action : string
}.

Record Metadata := {
  md_user_query : string;
  total_chunks : nat;
  total_batches : nat;
  total_tokens_estimated : Float64.float;
  processing_strategy : string;
  prioritized : bool;
  total_processing_time : Z
}.

Record ConfigSnapshot := {
  cs_model_name : string;
  chunks_per_batch_limit : Z;
  cs_max_content_tokens : Z
}.

Record SynthesisResult := {
  response : string;
  metadata : Metadata;
  processing_log : list StepRecord;
  config : ConfigSnapshot
}.

(** The string [gemini_generate] returns for an outcome of the call: the
    text, or an error string when the text is empty or the call raised. *)
Definition text_or_error (out : GenOutcome) : string :=
  match out with
  | Text EmptyString => "Error: No response generated from Gemini API"
  | Text t => t
  | Raised e => ("Error: Gemini API call failed - " ++ e)%string
  end.

(** Step 2 of [refine_synthesis]: the whole list as one batch when its
    total estimate is within the budget, the planner's batches otherwise. *)
Definition determine_batches (py : Interpreter) (cfg : RefineConfig)
    (chunks : list string) : list (list string) :=
  if Float64.leb_Z (sum_estimates py chunks) (max_content_tokens cfg)
  then [chunks] else create_batches cfg chunks.

Section Orchestrator.

(** The Gemini service: its state [G], and what a call with a prompt, a
    temperature and [max_output_tokens] does in a state. *)
Context {G : Type}.
Variable generate_content :
  G -> string -> Float64.float -> Z -> GenOutcome * G.

(** The wall clock: the value of the [k]-th [datetime.now()] of a run. *)
Variable now : nat -> Z.

(** The interpreter the tool runs on. *)
Variable py : Interpreter.

(** The world a call runs in: the service, the prompts sent to it so far
    (oldest first) and how many times the clock was read. *)
Record World := {
  service : G;
  prompts_sent : list string;
  clock_reads : nat
}.

(** Computations that read and change the world and may raise. *)
Definition M (A : Type) : Type := World -> (PyExc + A) * World.

Definition ret {A} (a : A) : M A := fun w => (inr a, w).
Definition raise {A} (e : PyExc) : M A := fun w => (inl e, w).
Definition bind {A B} (m : M A) (k : A -> M B) : M B :=
  fun w =>
    match m w with
    | (inl e, w') => (inl e, w')
    | (inr a, w') => k a w'
    end.

Notation "x <- m ;; k" := (bind m (fun x => k))
  (at level 100, m at next level, right associativity).

Definition lift {A} (r : PyExc + A) : M A :=
  match r with inl e => raise e | inr a => ret a end.

Definition datetime_now : M Z :=
  fun w => (inr (now (clock_reads w)),
            {| service := service w; prompts_sent := prompts_sent w;
               clock_reads := S (clock_reads w) |}).

(** What a call to the service returns in a state of the service: the
    outcome, the text [gemini_generate] makes of it, and the next state. *)
Definition call_outcome (cfg : RefineConfig) (g : G) (prompt : string)
  : GenOutcome :=
  fst (generate_content g prompt (temperature cfg)
                        (response_reserve_tokens cfg)).

Definition call_text (cfg : RefineConfig) (g : G) (prompt : string) : string :=
  text_or_error (call_outcome cfg g prompt).

Definition call_next (cfg : RefineConfig) (g : G) (prompt : string) : G :=
  snd (generate_content g prompt (temperature cfg)
                        (response_reserve_tokens cfg)).

(** [gemini_generate]: the call never raises; an empty text and an
    exception both become a string that starts with [Error:]. *)
Definition gemini_generate (cfg : RefineConfig) (prompt : string) : M string :=
  fun w =>
    (inr (call_text cfg (service w) prompt),
     {| service := call_next cfg (service w) prompt;
        prompts_sent := prompts_sent w ++ [prompt];
        clock_reads := clock_reads w |}).

(** Step 4, [for i, batch in enumerate(batches[1:], 2)]. *)
Fixpoint refine_loop (cfg : RefineConfig) (user_query : string)
    (n_batches : nat) (i : nat) (rest : list (list string))
    (current_response : string) (log : list StepRecord)
  : M (string * list StepRecord) :=
  match rest with
  | [] => ret (current_response, log)
  | batch :: rest' =>
      batch_start <- datetime_now ;;
      let refine_prompt :=
        create_refine_prompt user_query current_response batch i n_batches in
      refined_response <- gemini_generate cfg refine_prompt ;;
      t <- datetime_now ;;
      refine_loop cfg user_query n_batches (S i) rest' refined_response
        (log ++ [{| batch_number := i; chunk_count := length batch;
                    processing_time := t - batch_start;
                    action := "refine_synthesis" |}])
  end.

Definition refine_synthesis (cfg : RefineConfig) (user_query : string)
    (chunks : list string) (prioritize : bool) : M SynthesisResult :=
  start_time <- datetime_now ;;
  (* Step 1 *)
  let chunks :=
    if prioritize then prioritize_chunks chunks user_query else chunks in
  (* Step 2 *)
  let total_tokens := sum_estimates py chunks in
  let batches := determine_batches py cfg chunks in
  (* Step 3 *)
  match batches with
  | [] => raise IndexError
  | first :: rest =>
      let initial_prompt :=
        create_initial_prompt user_query first (length batches) in
      current_response <- gemini_generate cfg initial_prompt ;;
      t <- datetime_now ;;
      let log := [{| batch_number := 1; chunk_count := length first;
                     processing_time := t - start_time;
                     action := "initial_synthesis" |}] in
      (* Step 4 *)
      refined <-
        refine_loop cfg user_query (length batches) 2 rest
                    current_response log ;;
      let '(current_response, log) := refined in
      t_end <- datetime_now ;;
      limit <- lift (chunks_per_batch cfg) ;;
      ret {| response := current_response;
             metadata :=
               {| md_user_query := user_query;
                  total_chunks := length chunks;
                  total_batches := length batches;
                  total_tokens_estimated := total_tokens;
                  processing_strategy :=
                    if (length batches =? 1)%nat
                    then "single_batch" else "multi_batch";
                  prioritized := prioritize;
                  total_processing_time := t_end - start_time |};
             processing_log := log;
             config :=
               {| cs_model_name := model_name cfg;
                  chunks_per_batch_limit := limit;
                  cs_max_content_tokens := max_content_tokens cfg |} |}
  end.

End Orchestrator.

(** ** Scenarios: configurations, services and clocks to run the tool on *)

(** A budget of three tokens of content. *)
Definition small_config : RefineConfig := {|
  model_name := "gemini-1.5-pro";
  max_tokens_per_request := 5;
  response_reserve_tokens := 1;
  prompt_overhead_tokens := 1;
  average_chunk_tokens := 1;
  temperature := S754_finite false 7205759403792794 (-56)
|}.

(** A service that plays a script: its state counts the calls served, and
    the [n]-th call gets the [n]-th outcome of the script, whatever the
    prompt. *)
Definition scripted (script : list GenOutcome)
    (n : nat) (prompt : string) (temp : Float64.float) (max_output : Z)
  : GenOutcome * nat :=
  (nth n script (Text "ANSWER"), S n).

Definition gateway_ok : nat -> string -> Float64.float -> Z -> GenOutcome * nat :=
  scripted [Text "draft"; Text "better"; Text "final"].

Definition gateway_failing_second
  : nat -> string -> Float64.float -> Z -> GenOutcome * nat :=
  scripted [Text "draft"; Raised "503 unavailable"; Text "final"].

(** The default configuration with [max_tokens_per_request] 4000: its
    budget is 4000 - 4000 - 1000. *)
Definition tight_config : RefineConfig := {|
  model_name := "gemini-1.5-pro";
  max_tokens_per_request := 4000;
  response_reserve_tokens := 4000;
  prompt_overhead_tokens := 1000;
  average_chunk_tokens := 530;
  temperature := S754_finite false 7205759403792794 (-56)
|}.

(** A budget of 133 tokens of content. *)
Definition budget_133_config : RefineConfig := {|
  model_name := "gemini-1.5-pro";
  max_tokens_per_request := 135;
  response_reserve_tokens := 1;
  prompt_overhead_tokens := 1;
  average_chunk_tokens := 1;
  temperature := S754_finite false 7205759403792794 (-56)
|}.

(** A fragment of [n] words. *)
Definition words (n : nat) : string := String.concat " " (repeat "w" n).

(** A clock that advances by one unit per reading. *)
Definition ticking (k : nat) : Z := Z.of_nat k.

Definition fresh_world : @World nat :=
  {| service := 0%nat; prompts_sent := []; clock_reads := 0%nat |}.

(** Three batches under [small_config]: estimates 2.66, 5.32 and twice 1.33. *)
Definition three_batch_chunks : list string := ["a b"; "c d e f"; "g"; "h"].

(** ** Predicates the properties are stated with *)

(** The order [sorted_reverse] sorts in. *)
Definition desc {A : Type} (key : A -> nat) (a b : A) : Prop :=
  (key b <= key a)%nat.

(** A batch is within budget, or it is one fragment that alone exceeds it. *)
Definition within_budget (max_content : Z) (b : list string) : Prop :=
  Float64.leb_Z (total_estimate b) max_content = true
  \/ exists f, b = [f]
               /\ Float64.gtb_Z (estimate_tokens f) max_content = true.

(** The loop invariant: closed batches are within budget, the running
    count is the sum over the open batch, and the open batch, unless
    empty, is within budget too. *)
Record budget_inv (max_content : Z) (st : BatchState) : Prop := {
  inv_closed : Forall (within_budget max_content) (batches st);
  inv_tokens : current_tokens st = total_estimate (current_batch st);
  inv_open : current_batch st <> [] ->
             within_budget max_content (current_batch st)
}.

(** [sub in s] *)
Definition contains (s sub : string) : Prop :=
  exists pre post, s = (pre ++ sub ++ post)%string.

(** [__init__] formats [config.chunks_per_batch], so a tool exists only
    for a configuration whose [average_chunk_tokens] is not zero. *)
Definition constructible (cfg : RefineConfig) : Prop :=
  average_chunk_tokens cfg <> 0.

(** The default configuration and one that differs from it in
    [average_chunk_tokens] only: the hint differs, the batches do not. *)
Definition config_with_average (avg : Z) : RefineConfig :=
  {| model_name := model_name default_config;
     max_tokens_per_request := max_tokens_per_request default_config;
     response_reserve_tokens := response_reserve_tokens default_config;
     prompt_overhead_tokens := prompt_overhead_tokens default_config;
     average_chunk_tokens := avg;
     temperature := temperature default_config |}.

(* ===================================================================== *)
(** * Predicates for the planner and the runs *)
(* ===================================================================== *)

(** [P] holds of every two neighbours of a list. *)
Fixpoint adjacent {A : Type} (P : A -> A -> Prop) (l : list A) : Prop :=
  match l with
  | x :: (y :: _) as tl => P x y /\ adjacent P tl
  | _ => True
  end.

(** The first fragment of [next], put after [b], exceeds the budget. *)
Definition overflows_with (max_content : Z) (b next : list string) : Prop :=
  exists c rest,
    next = c :: rest
    /\ Float64.gtb_Z (total_estimate (b ++ [c])) max_content = true.

(** The invariant of the planner's loop behind greedy packing. *)
Record greedy_inv (max_content : Z) (st : BatchState) : Prop := {
  gi_tokens : current_tokens st = total_estimate (current_batch st);
  gi_empty : current_batch st = [] -> batches st = [];
  gi_adjacent :
    adjacent (overflows_with max_content) (batches st ++ [current_batch st])
}.

(** What a step of the run leaves behind: the prompt carries the query and
    every fragment of its batch. *)
Definition carries (q : string) (prompt : string) (batch : list string) : Prop :=
  contains prompt q /\ forall c, In c batch -> contains prompt c.

(** The log entry times a clock reading at [j] and the next one. *)
Definition timed_between (now : nat -> Z) (lo hi : nat) (r : StepRecord) : Prop :=
  exists j, (lo <= j)%nat /\ (S j < hi)%nat
            /\ processing_time r = now (S j) - now j.

(** What a token count is: zero, a positive normal number, or infinity. *)
Definition count_like (x : Float64.float) : Prop :=
  x = Float64.zero \/ Float64Spec.normal_le x (S754_infinity false).

(** [x <= y] on token counts. *)
Definition count_le (x y : Float64.float) : Prop :=
  (x = Float64.zero /\ count_like y) \/ Float64Spec.normal_le x y.

(* ===================================================================== *)
(** * More of Python's [str]: [in], [replace], [strip] *)
(* ===================================================================== *)

Module PyStrOps.

(** [sub in s] on strings. *)
Fixpoint contains_b (s sub : string) : bool :=
  String.prefix sub s
  || match s with
     | EmptyString => false
     | String _ s' => contains_b s' sub
     end.

(** [s.replace(old, new)] for an [old] that is not empty: the occurrences
    of [old] are found from left to right and do not overlap; [skip]
    counts the characters of an occurrence still to pass over. *)
Fixpoint replace_aux (old new s : string) (skip : nat) : string :=
  match s with
  | EmptyString => EmptyString
  | String c s' =>
      match skip with
      | S k => replace_aux old new s' k
      | O =>
          if String.prefix old s
          then (new ++ replace_aux old new s' (String.length old - 1))%string
          else String c (replace_aux old new s' 0)
      end
  end.

Definition replace (old new s : string) : string := replace_aux old new s 0.

(** [s.lstrip()], [s.strip()] with no argument: whitespace is what
    [str.split()] takes as whitespace. *)
Fixpoint lstrip_list (l : list ascii) : list ascii :=
  match l with
  | c :: l' => if PyStr.isspace c then lstrip_list l' else l
  | [] => []
  end.

Definition strip (s : string) : string :=
  string_of_list_ascii
    (rev (lstrip_list (rev (lstrip_list (list_ascii_of_string s))))).

End PyStrOps.

(* ===================================================================== *)
(** * The values of [json.load] and the operations the tool applies *)
(* ===================================================================== *)

(** [None], [bool], [int], [float], [str], [list], and [dict] with [str]
    keys: a dict is the list of its items in insertion order, and a key is
    looked up from the front. *)
#[warnings="-register-all"]
Inductive Value :=
| VNone
| VBool (b : bool)
| VInt (n : Z)
| VFloat (x : Float64.float)
| VStr (s : string)
| VList (elements : list Value)
| VDict (items : list (string * Value)).

(** The exceptions of the code around a run: those the operations on
    values raise, the one of [__init__], a failure of [open] or
    [json.load], and the exceptions of the run itself. *)
Inductive PyError :=
| ValueError
| AttributeError
| TypeError
| KeyError
| LoadError
| Exc (e : PyExc).

Definition ebind {A B : Type} (m : PyError + A) (k : A -> PyError + B)
  : PyError + B :=
  match m with
  | inl e => inl e
  | inr a => k a
  end.

Module ErrorNotations.
Notation "x <- m ;; k" := (ebind m (fun x => k))
  (at level 100, m at next level, right associativity).
End ErrorNotations.
Import ErrorNotations.

(** [bool(v)] *)
Definition truthy (v : Value) : bool :=
  match v with
  | VNone => false
  | VBool b => b
  | VInt n => negb (n =? 0)
  | VFloat x => match x with S754_zero _ => false | _ => true end
  | VStr s => match s with EmptyString => false | _ => true end
  | VList l => match l with [] => false | _ => true end
  | VDict d => match d with [] => false | _ => true end
  end.

(** [v == s] for a string [s]. *)
Definition eq_str (v : Value) (s : string) : bool :=
  match v with
  | VStr t => String.eqb t s
  | _ => false
  end.

Fixpoint dict_lookup (key : string) (items : list (string * Value))
  : option Value :=
  match items with
  | [] => None
  | (k, v) :: rest => if String.eqb k key then Some v else dict_lookup key rest
  end.

(** [d.get(key, default)]: only a dict has [get]. *)
Definition get (d : Value) (key : string) (default : Value)
  : PyError + Value :=
  match d with
  | VDict items =>
      inr (match dict_lookup key items with Some v => v | None => default end)
  | _ => inl AttributeError
  end.

(** [key in container]: a key of a dict, an element of a list, a substring
    of a string; the other values are not containers. *)
Definition py_in (key : string) (container : Value) : PyError + bool :=
  match container with
  | VDict items =>
      inr (match dict_lookup key items with Some _ => true | None => false end)
  | VList l => inr (existsb (fun v => eq_str v key) l)
  | VStr s => inr (PyStrOps.contains_b s key)
  | _ => inl TypeError
  end.

(** [x[key]] for a string [key]. *)
Definition getitem (x : Value) (key : string) : PyError + Value :=
  match x with
  | VDict items =>
      match dict_lookup key items with
      | Some v => inr v
      | None => inl KeyError
      end
  | _ => inl TypeError
  end.

(** What [for e in x] goes through: the elements of a list, the keys of a
    dict, the characters of a string. *)
Definition py_iter (x : Value) : PyError + list Value :=
  match x with
  | VList l => inr l
  | VDict items => inr (map (fun kv => VStr (fst kv)) items)
  | VStr s =>
      inr (map (fun c => VStr (String c EmptyString)) (list_ascii_of_string s))
  | _ => inl TypeError
  end.

(** The strings of a list of values, all of which must be strings. *)
Fixpoint strings_of (l : list Value) : PyError + list string :=
  match l with
  | [] => inr []
  | VStr s :: rest => ss <- strings_of rest ;; inr (s :: ss)
  | _ :: _ => inl TypeError
  end.

(** [sep.join(x)] *)
Definition str_join (sep : string) (x : Value) : PyError + string :=
  l <- py_iter x ;;
  ss <- strings_of l ;;
  inr (PyStr.join sep ss).

(* ===================================================================== *)
(** * RefineSynthesisTool: reading the retrieval system's JSON *)
(* ===================================================================== *)

Definition newline : string := "
".

Section Formatting.

(** [str(v)] of a value that is not a string, as an f-string prints it. *)
Variable repr : Value -> string.

(** [f"{v}"] *)
Definition format_value (v : Value) : string :=
  match v with
  | VStr s => s
  | _ => repr v
  end.

(** The inner loop of [format_excel_data], [for col in columns]. *)
Fixpoint format_cells (row : Value) (columns : list string)
    (formatted : string) : PyError + string :=
  match columns with
  | [] => inr formatted
  | col :: columns' =>
      value <- get row col (VStr "N/A") ;;
      format_cells row columns'
        (formatted ++ "  " ++ col ++ ": " ++ format_value value ++ newline)%string
  end.

(** The outer loop, [for i, row in enumerate(data)]. *)
Fixpoint format_rows (data : list Value) (i : nat) (columns : list string)
    (formatted : string) : PyError + string :=
  match data with
  | [] => inr formatted
  | row :: data' =>
      formatted <-
        format_cells row columns
          (formatted ++ "Row " ++ str_of_nat (i + 1) ++ ":" ++ newline)%string ;;
      format_rows data' (S i) columns (formatted ++ newline)%string
  end.

Definition format_excel_data (excel_content : Value) : PyError + string :=
  has_data <- py_in "data" excel_content ;;
  if negb has_data then inr "No Excel data available"
  else
    data <- getitem excel_content "data" ;;
    columns <- get excel_content "columns" (VList []) ;;
    cols <- (l <- py_iter columns ;; strings_of l) ;;
    let formatted :=
      ("Excel Data - Columns: " ++ PyStr.join ", " cols
       ++ newline ++ newline)%string in
    rows <- py_iter data ;;
    format_rows rows 0 cols formatted.

(** [for result in results] of [extract_chunks_from_json]. *)
Fixpoint extract_results (results : list Value) (chunks : list Value)
  : PyError + list Value :=
  match results with
  | [] => inr chunks
  | result :: results' =>
      has_preview <- py_in "match_preview" result ;;
      if has_preview then
        v <- getitem result "match_preview" ;;
        extract_results results' (chunks ++ [v])
      else
        has_content <- py_in "content" result ;;
        if has_content then
          v <- getitem result "content" ;;
          extract_results results' (chunks ++ [v])
        else extract_results results' chunks
  end.

(** [for item in items] of [extract_chunks_from_json]. *)
Fixpoint extract_items (items : list Value) (chunks : list Value)
  : PyError + list Value :=
  match items with
  | [] => inr chunks
  | item :: items' =>
      has_content <- py_in "content" item ;;
      if has_content then
        v <- getitem item "content" ;;
        extract_items items' (chunks ++ [v])
      else extract_items items' chunks
  end.

(** The chunks are whatever values the JSON holds at these places: the
    function does not check that they are strings. *)
Definition extract_chunks_from_json (data : Value) : PyError + list Value :=
  let chunks := [] in
  response_data <- get data "response" (VDict []) ;;
  detailed_results <- get response_data "detailed_results" (VDict []) ;;
  type1 <- get detailed_results "type" VNone ;;
  if eq_str type1 "pdf_chunk" then
    content <- get detailed_results "content" (VStr "") ;;
    if truthy content then inr (chunks ++ [content]) else inr chunks
  else
    type2 <- get detailed_results "type" VNone ;;
    if eq_str type2 "excel_table" then
      excel_content <- get detailed_results "content" (VDict []) ;;
      has_data <- py_in "data" excel_content ;;
      if has_data then
        formatted_content <- format_excel_data excel_content ;;
        inr (chunks ++ [VStr formatted_content])
      else inr chunks
    else
      has_results <- py_in "results" detailed_results ;;
      if has_results then
        results <- get detailed_results "results" (VList []) ;;
        l <- py_iter results ;;
        extract_results l chunks
      else
        has_items <- py_in "items" detailed_results ;;
        if has_items then
          items <- get detailed_results "items" (VList []) ;;
          l <- py_iter items ;;
          extract_items l chunks
        else
          has_files <- py_in "files" detailed_results ;;
          if has_files then
            files <- get detailed_results "files" (VList []) ;;
            joined <- str_join ", " files ;;
            inr (chunks ++ [VStr ("Available files: " ++ joined)%string])
          else inr chunks.

End Formatting.

Definition natural_language : string := "Natural language:".

Definition infer_query_from_json (data : Value) : PyError + string :=
  test_name <- get data "test_name" (VStr "") ;;
  expected <- get data "expected" (VStr "") ;;
  test_params <- get data "test_params" (VDict []) ;;
  operation <- get test_params "operation" (VStr "") ;;
  marked <-
    (if truthy expected then py_in natural_language expected
     else inr false) ;;
  if marked then
    match expected with
    | VStr s => inr (PyStrOps.strip (PyStrOps.replace natural_language "" s))
    | _ => inl AttributeError
    end
  else
    match test_name with
    | VStr name =>
        let lowered := PyStr.lower name in
        if PyStrOps.contains_b lowered "file discovery"
        then inr "What files are available in the system?"
        else if PyStrOps.contains_b lowered "excel data"
        then inr "Show me the Excel data and provide analysis"
        else if PyStrOps.contains_b lowered "search content"
        then inr "Search for relevant content and provide summary"
        else inr ("Process and analyze the content from " ++ name)%string
    | _ => inl AttributeError
    end.

(* ===================================================================== *)
(** * RefineSynthesisTool: construction and the entry points around a run *)
(* ===================================================================== *)

(** The fields [__init__] sets: the key, the model name given to
    [GenerativeModel] and the configuration. *)
Record RefineSynthesisTool := {
  api_key : string;
  tool_model_name : string;
  tool_config : RefineConfig
}.

(** [a or b] on optional strings: [a] when it is a string that is not
    empty, [b] otherwise. *)
Definition or_else (a b : option string) : option string :=
  match a with
  | Some (String _ _) => a
  | _ => b
  end.

(** [__init__]; [getenv] is [os.getenv('GEMINI_API_KEY')].
    [genai.configure] and [GenerativeModel] are taken to return; the
    three [print] calls are left out, but the last one evaluates
    [config.chunks_per_batch]. *)
Definition __init__ (getenv : option string) (api_key : option string)
    (config : option RefineConfig) : PyError + RefineSynthesisTool :=
  match or_else api_key getenv with
  | Some (String _ _ as key) =>
      let model :=
        match config with
        | Some c => model_name c
        | None => "gemini-1.5-pro"
        end in
      let cfg :=
        match config with
        | Some c => c
        | None => default_config
        end in
      match chunks_per_batch cfg with
      | inl e => inl (Exc e)
      | inr _ =>
          inr {| api_key := key; tool_model_name := model;
                 tool_config := cfg |}
      end
  | _ => inl ValueError
  end.

(** The chunks of a list of values when all of them are strings. *)
Fixpoint all_strings (l : list Value) : option (list string) :=
  match l with
  | [] => Some []
  | VStr s :: rest =>
      match all_strings rest with
      | Some ss => Some (s :: ss)
      | None => None
      end
  | _ :: _ => None
  end.

(** What [_synthesis_phase] returns: the fixed answer, with the reason in
    its metadata, when there is nothing to synthesize; the result of a run
    otherwise. *)
Inductive SynthesisOutcome :=
| NotPerformed (response reason : string)
| Performed (result : SynthesisResult).

(** The [metadata] of what [_synthesis_phase] returns: that of the run,
    or [synthesis_performed: False] with a reason. *)
Inductive SynthesisMetadata :=
| NoSynthesis (reason : string)
| OfRun (m : Metadata).

(** The entry [_synthesis_phase] appends to the integrated tool's
    processing log. *)
Record PhaseRecord := {
  phase : string;
  duration_seconds : Z;
  status : string;
  input_chunks : nat;
  synthesis_metadata : SynthesisMetadata;
  synthesis_strategy : string
}.

Definition outcome_response (o : SynthesisOutcome) : string :=
  match o with
  | NotPerformed r _ => r
  | Performed res => response res
  end.

Definition outcome_metadata (o : SynthesisOutcome) : SynthesisMetadata :=
  match o with
  | NotPerformed _ reason => NoSynthesis reason
  | Performed res => OfRun (metadata res)
  end.

(** [metadata.get("processing_strategy", "unknown")] *)
Definition strategy_of (m : SynthesisMetadata) : string :=
  match m with
  | NoSynthesis _ => "unknown"
  | OfRun m => processing_strategy m
  end.

Section EntryPoints.

Context {G : Type}.
Variable generate_content :
  G -> string -> Float64.float -> Z -> GenOutcome * G.
Variable now : nat -> Z.
Variable py : Interpreter.

(** [os.getenv('GEMINI_API_KEY')] *)
Variable getenv : option string.

(** [json.load] of the file at a path; [None] when [open] or [json.load]
    raises. *)
Variable json_load : string -> option Value.

Variable repr : Value -> string.

(** Computations around a run. *)
Definition MX (A : Type) : Type := @World G -> (PyError + A) * @World G.

(** [refine_synthesis] with [prioritize=True] on values that need not be
    strings: the clock is read, and the first value that is not a string
    makes [chunk.lower()] in [prioritize_chunks] raise. *)
Definition refine_synthesis_values (cfg : RefineConfig) (user_query : string)
    (chunks : list Value) : MX SynthesisResult :=
  fun w =>
    match all_strings chunks with
    | Some l =>
        match refine_synthesis generate_content now py cfg user_query l true w with
        | (inl e, w') => (inl (Exc e), w')
        | (inr res, w') => (inr res, w')
        end
    | None =>
        (inl AttributeError,
         {| service := service w; prompts_sent := prompts_sent w;
            clock_reads := S (clock_reads w) |})
    end.

(** [process_json_file] of a tool with configuration [cfg]; a query that
    is [None] or empty is inferred from the data.  The [print] calls are
    left out. *)
Definition process_json_file (cfg : RefineConfig) (json_file_path : string)
    (user_query : option string) : MX SynthesisResult :=
  fun w =>
    match json_load json_file_path with
    | None => (inl LoadError, w)
    | Some data =>
        match extract_chunks_from_json repr data with
        | inl e => (inl e, w)
        | inr chunks =>
            match
              match user_query with
              | Some (String _ _ as q) => inr q
              | _ => infer_query_from_json data
              end
            with
            | inl e => (inl e, w)
            | inr q => refine_synthesis_values cfg q chunks w
            end
        end
    end.

(** The two functions of the module: a tool is built with the default
    configuration, and the [response] of the result is returned. *)
Definition simple_refine_synthesis (user_query : string)
    (chunks : list string) (api_key : option string) : MX string :=
  fun w =>
    match __init__ getenv api_key None with
    | inl e => (inl e, w)
    | inr tool =>
        match
          refine_synthesis generate_content now py (tool_config tool)
            user_query chunks true w
        with
        | (inl e, w') => (inl (Exc e), w')
        | (inr result, w') => (inr (response result), w')
        end
    end.

Definition process_json_file_simple (json_file_path : string)
    (user_query : option string) (api_key : option string) : MX string :=
  fun w =>
    match __init__ getenv api_key None with
    | inl e => (inl e, w)
    | inr tool =>
        match process_json_file (tool_config tool) json_file_path user_query w
        with
        | (inl e, w') => (inl e, w')
        | (inr result, w') => (inr (response result), w')
        end
    end.

(** [_synthesis_phase] of the integrated tool, which holds a
    [RefineSynthesisTool] with configuration [cfg]: [user_query] is
    [inputs.user_query], [chunks] is the [chunks] entry of
    [retrieved_content], and the log returned is [processing_log] after
    the [append].  Nothing is synthesized from no chunk. *)
Definition _synthesis_phase (cfg : RefineConfig) (user_query : string)
    (chunks : list Value) (processing_log : list PhaseRecord)
  : MX (SynthesisOutcome * list PhaseRecord) :=
  fun w =>
    let phase_start := now (clock_reads w) in
    let w1 := {| service := service w; prompts_sent := prompts_sent w;
                 clock_reads := S (clock_reads w) |} in
    let finish (o : SynthesisOutcome) (w2 : @World G) :=
      (inr (o, processing_log
               ++ [{| phase := "refine_synthesis";
                      duration_seconds := now (clock_reads w2) - phase_start;
                      status := "completed";
                      input_chunks := length chunks;
                      synthesis_metadata := outcome_metadata o;
                      synthesis_strategy := strategy_of (outcome_metadata o) |}]),
       {| service := service w2; prompts_sent := prompts_sent w2;
          clock_reads := S (clock_reads w2) |}) in
    match chunks with
    | [] =>
        finish
          (NotPerformed
             ("I could not find relevant content to answer your query: '"
              ++ user_query
              ++ "'. This may be because the search operations determined from your query and the available data did not return matching content, or the specific information you're looking for may not be present in the available documents.")%string
             "No relevant content chunks retrieved from determined operations")
          w1
    | _ :: _ =>
        match refine_synthesis_values cfg user_query chunks w1 with
        | (inl e, w2) => (inl e, w2)
        | (inr res, w2) => finish (Performed res) w2
        end
    end.

End EntryPoints.

(** ** Scenarios: values, a file and a [repr] to run these on *)

(** [str] of [None], of a [bool] and of an [int]; the other values are
    abbreviated. *)
Definition repr_scalar (v : Value) : string :=
  match v with
  | VNone => "None"
  | VBool true => "True"
  | VBool false => "False"
  | VInt n => NilZero.string_of_int (Z.to_int n)
  | _ => "..."
  end.

(** A search result with three hits: one with a preview and a content,
    one with a content only, one with neither. *)
Definition search_data : Value :=
  VDict [("status", VStr "ok");
         ("response",
          VDict [("detailed_results",
                  VDict [("results",
                          VList [VDict [("match_preview", VStr "capital ratio");
                                        ("content", VStr "the whole page")];
                                 VDict [("content", VStr "buffers apply")];
                                 VDict [("score", VInt 3)]])])])].

(** A record with no [response]. *)
Definition bare_data : Value := VDict [("test_name", VStr "Smoke test")].


(** A table of two rows, the second without a [ratio]. *)
Definition ratio_table : list (string * Value) :=
  [("columns", VList [VStr "name"; VStr "ratio"]);
   ("data", VList [VDict [("name", VStr "CET1"); ("ratio", VInt 7)];
                   VDict [("name", VStr "Tier 1")]])].

(** A file system with one file. *)
Definition one_file (name : string) (data : Value) (path : string)
  : option Value :=
  if String.eqb path name then Some data else None.

(** ** Predicates and functions the properties of these are stated with *)

Definition is_dict (v : Value) : Prop :=
  match v with
  | VDict _ => True
  | _ => False
  end.

(** The chunk a search result gives: its [match_preview], or else its
    [content], or none. *)
Definition preview_or_content (result : Value) : option Value :=
  match result with
  | VDict items =>
      match dict_lookup "match_preview" items with
      | Some v => Some v
      | None => dict_lookup "content" items
      end
  | _ => None
  end.

(** The text [format_excel_data] makes of the cells of a row and of the
    rows of a table, the first of which has number [i + 1]. *)
Fixpoint cells_text (repr : Value -> string)
    (items : list (string * Value)) (columns : list string) : string :=
  match columns with
  | [] => ""
  | col :: columns' =>
      ("  " ++ col ++ ": "
       ++ format_value repr
            (match dict_lookup col items with
             | Some v => v
             | None => VStr "N/A"
             end)
       ++ newline ++ cells_text repr items columns')%string
  end.

Fixpoint rows_text (repr : Value -> string) (columns : list string)
    (i : nat) (rows : list (list (string * Value))) : string :=
  match rows with
  | [] => ""
  | items :: rows' =>
      ("Row " ++ str_of_nat (i + 1) ++ ":" ++ newline
       ++ cells_text repr items columns ++ newline
       ++ rows_text repr columns (S i) rows')%string
  end.

(** The [detailed_results] the extraction looks at, when the data, its
    [response] and its [detailed_results] are dicts; a missing entry
    counts as the empty dict. *)
Definition detailed_results_of (data : Value)
  : option (list (string * Value)) :=
  match get data "response" (VDict []) with
  | inr response_data =>
      match get response_data "detailed_results" (VDict []) with
      | inr (VDict detailed_results) => Some detailed_results
      | _ => None
      end
  | inl _ => None
  end.

(** The [type] of the results is none of those handled apart. *)
Definition untyped (detailed_results : list (string * Value)) : Prop :=
  dict_lookup "type" detailed_results <> Some (VStr "pdf_chunk")
  /\ dict_lookup "type" detailed_results <> Some (VStr "excel_table").

(** The failures of the operations on values: a value is not of the type
    the operation needs. *)
Definition value_error (e : PyError) : Prop :=
  e = AttributeError \/ e = TypeError.

Definition fails_on_value {A : Type} (r : PyError + A) : Prop :=
  match r with
  | inl e => value_error e
  | inr _ => True
  end.

(* ===================================================================== *)
(** * Facts on binary64 values *)
(* ===================================================================== *)

Module Float64Facts.
Import Float64 Float64Spec.

Lemma iter_pos_inv {A} (P : A -> Prop) (f : A -> A) :
  (forall a, P a -> P (f a)) ->
  forall p a, P a -> P (SpecFloat.iter_pos f p a).
Proof.
  intros Hf. induction p as [p IH|p IH|]; intros a Ha; simpl; auto.
Qed.

Lemma shr_1_nonneg mrs : 0 <= shr_m mrs -> 0 <= shr_m (shr_1 mrs).
Proof.
  destruct mrs as [m r s]. simpl.
  destruct m as [|[p|p|]|[p|p|]]; simpl; lia.
Qed.

Lemma shr_nonneg mrs e n : 0 <= shr_m mrs -> 0 <= shr_m (fst (shr mrs e n)).
Proof.
  intros H. destruct n; simpl; auto.
  apply (iter_pos_inv (fun r => 0 <= shr_m r)); auto using shr_1_nonneg.
Qed.

Lemma shr_record_of_loc_m m l : shr_m (shr_record_of_loc m l) = m.
Proof. destruct l as [|[]]; reflexivity. Qed.

Lemma shr_fexp_nonneg m e l :
  0 <= m -> 0 <= shr_m (fst (shr_fexp prec emax m e l)).
Proof.
  intros H. unfold shr_fexp. apply shr_nonneg.
  now rewrite shr_record_of_loc_m.
Qed.

Lemma round_nearest_even_nonneg m l : 0 <= m -> 0 <= round_nearest_even m l.
Proof.
  intros H. destruct l as [|[]]; simpl; try lia.
  destruct (Z.even m); lia.
Qed.

Lemma binary_round_aux_nonneg m e l :
  0 <= m -> nonneg (binary_round_aux prec emax false m e l) = true.
Proof.
  intros H. unfold binary_round_aux.
  pose proof (shr_fexp_nonneg m e l H) as H1.
  destruct (shr_fexp prec emax m e l) as [mrs1 e1]. simpl in H1.
  pose proof (shr_fexp_nonneg
                (round_nearest_even (shr_m mrs1) (loc_of_shr_record mrs1))
                e1 loc_Exact
                (round_nearest_even_nonneg _ _ H1)) as H2.
  destruct (shr_fexp prec emax _ e1 loc_Exact) as [mrs2 e2]. simpl in H2.
  destruct (shr_m mrs2); try lia; simpl; auto.
  destruct (e2 <=? emax - prec); reflexivity.
Qed.

Lemma binary_round_nonneg m e :
  nonneg (binary_round prec emax false m e) = true.
Proof.
  unfold binary_round.
  destruct (shl_align m e _) as [mz ez].
  apply binary_round_aux_nonneg. lia.
Qed.

Lemma of_Z_nonneg n : 0 <= n -> nonneg (of_Z n) = true.
Proof.
  intros H. unfold of_Z, binary_normalize.
  destruct n; try lia; auto using binary_round_nonneg.
Qed.

Lemma mul_lit_nonneg x : nonneg x = true -> nonneg (mul x lit_1_33) = true.
Proof.
  destruct x as [[]|[]| |[] mx ex]; try discriminate; try reflexivity.
  intros _. apply binary_round_aux_nonneg. lia.
Qed.

Lemma add_nonneg x y :
  nonneg x = true -> nonneg y = true -> nonneg (add x y) = true.
Proof.
  destruct x as [[]|[]| |[] mx ex]; try discriminate;
    destruct y as [[]|[]| |[] my ey]; try discriminate; try reflexivity.
  intros _ _. unfold add, SFadd. simpl cond_Zopp.
  apply binary_round_nonneg.
Qed.

(** [0 + x] is [x] for every float but the negative zero. *)
Lemma add_zero_l x : nonneg x = true -> add zero x = x.
Proof. destruct x as [[]|[]| |[] mx ex]; try discriminate; reflexivity. Qed.

Lemma compare_Z_nonneg x n : nonneg x = true -> compare_Z x n <> None.
Proof. destruct x as [[]|[]| |[] mx ex]; discriminate. Qed.

(** On a float that is not a NaN, [x > n] is the negation of [x <= n]. *)
Lemma gtb_Z_false_leb x n :
  nonneg x = true -> gtb_Z x n = false -> leb_Z x n = true.
Proof.
  intros Hx. pose proof (compare_Z_nonneg x n Hx) as Hc.
  unfold gtb_Z, leb_Z. destruct (compare_Z x n) as [[]|]; congruence.
Qed.

Lemma leb_or_gtb x n :
  nonneg x = true -> leb_Z x n = true \/ gtb_Z x n = true.
Proof.
  intros H. destruct (gtb_Z x n) eqn:E; auto using gtb_Z_false_leb.
Qed.

Lemma ltb_Z_leb x n : ltb_Z x n = true -> leb_Z x n = true.
Proof.
  unfold ltb_Z, leb_Z. destruct (compare_Z x n) as [[]|]; congruence.
Qed.

Lemma leb_Z_not_gtb x n : leb_Z x n = true -> gtb_Z x n = false.
Proof.
  unfold gtb_Z, leb_Z. destruct (compare_Z x n) as [[]|]; congruence.
Qed.

End Float64Facts.

(* ===================================================================== *)
(** * Rounding to nearest even in binary64 *)
(* ===================================================================== *)

Module Rounding.
Import Float64Spec.

(** The number of binary digits of a positive number. *)
Lemma digits2_pos_bounds (p : positive) :
  2 ^ (Z.pos (digits2_pos p) - 1) <= Z.pos p < 2 ^ Z.pos (digits2_pos p).
Proof.
  induction p as [p IH|p IH|]; cbn [digits2_pos].
  - rewrite Pos2Z.inj_succ.
    replace (Z.succ (Z.pos (digits2_pos p)) - 1)
      with (Z.succ (Z.pos (digits2_pos p) - 1)) by lia.
    rewrite !Z.pow_succ_r by lia. lia.
  - rewrite Pos2Z.inj_succ.
    replace (Z.succ (Z.pos (digits2_pos p)) - 1)
      with (Z.succ (Z.pos (digits2_pos p) - 1)) by lia.
    rewrite !Z.pow_succ_r by lia. lia.
  - simpl. lia.
Qed.

Lemma digits2_pos_unique (p : positive) (d : Z) :
  2 ^ (d - 1) <= Z.pos p < 2 ^ d -> Z.pos (digits2_pos p) = d.
Proof.
  intros [Hlo Hhi]. pose proof (digits2_pos_bounds p) as [Hlo' Hhi'].
  assert (0 < d).
  { destruct (Z_lt_le_dec 0 d); [assumption|].
    destruct (Z.eq_dec d 0) as [->|]; [simpl in Hhi; lia|].
    rewrite (Z.pow_neg_r 2 d) in Hhi by lia. lia. }
  assert (d - 1 < Z.pos (digits2_pos p)).
  { apply (Z.pow_lt_mono_r_iff 2); lia. }
  assert (Z.pos (digits2_pos p) - 1 < d).
  { apply (Z.pow_lt_mono_r_iff 2); lia. }
  lia.
Qed.

(** [iter_pos] is iteration. *)
Lemma iter_pos_nat {A} (f : A -> A) (p : positive) (x : A) :
  SpecFloat.iter_pos f p x = Nat.iter (Pos.to_nat p) f x.
Proof.
  revert x. induction p as [p IH|p IH|]; intros x; cbn [SpecFloat.iter_pos].
  - rewrite !IH, Pos2Nat.inj_xI.
    replace (S (2 * Pos.to_nat p)) with (Pos.to_nat p + S (Pos.to_nat p))%nat
      by lia.
    rewrite Nat.iter_add, Nat.iter_succ_r. reflexivity.
  - rewrite !IH, Pos2Nat.inj_xO.
    replace (2 * Pos.to_nat p)%nat with (Pos.to_nat p + Pos.to_nat p)%nat
      by lia.
    rewrite Nat.iter_add. reflexivity.
  - reflexivity.
Qed.

Lemma shifted_start (M : Z) :
  0 <= M -> shifted M 0 {| shr_m := M; shr_r := false; shr_s := false |} 0.
Proof. intros H. split; simpl; try lia. reflexivity. Qed.

Lemma loc_of_cases (low K : Z) (r s : bool) :
  0 <= low < K ->
  loc_of_shr_record {| shr_m := 0; shr_r := r; shr_s := s |} = loc_of low K ->
  match r, s with
  | false, false => low = 0
  | false, true => 0 < low /\ 2 * low < K
  | true, false => 2 * low = K
  | true, true => K < 2 * low
  end.
Proof.
  intros Hrem. unfold loc_of.
  destruct (Z.compare_spec (2 * low) K);
    destruct (Z.eqb_spec low 0) as [H0|Hne];
    destruct r, s; simpl; intros Hloc; try discriminate; lia.
Qed.

Lemma shr_1_shifted (M k : Z) (mrs : shr_record) (low : Z) :
  0 <= k -> shifted M k mrs low ->
  exists low', shifted M (k + 1) (shr_1 mrs) low'.
Proof.
  intros Hk [Hm Hrem Heq Hloc].
  destruct mrs as [m r s]. cbn [shr_m] in *.
  assert (Hcase := loc_of_cases low (2 ^ k) r s Hrem).
  assert (HK : 0 < 2 ^ k) by (apply Z.pow_pos_nonneg; lia).
  assert (HK1 : 2 ^ (k + 1) = 2 * 2 ^ k).
  { rewrite Z.pow_add_r by lia. simpl. lia. }
  assert (Hc : match r, s with
               | false, false => low = 0
               | false, true => 0 < low /\ 2 * low < 2 ^ k
               | true, false => 2 * low = 2 ^ k
               | true, true => 2 ^ k < 2 * low
               end).
  { apply Hcase. destruct r, s; exact Hloc. }
  clear Hcase Hloc.
  set (K := 2 ^ k) in *.
  destruct m as [|[p|p|]|p]; try lia; cbn [shr_1].
  - (* m = 0 *)
    exists low. split; cbn [shr_m]; rewrite ?HK1; try lia.
    unfold loc_of. destruct r, s; cbn [orb loc_of_shr_record];
      destruct (Z.eqb_spec low 0); destruct (Z.compare_spec (2 * low) (2 * K));
      try reflexivity; lia.
  - (* m = 2p+1 *)
    exists (low + K). split; cbn [shr_m]; rewrite ?HK1; try lia.
    unfold loc_of. destruct r, s; cbn [orb loc_of_shr_record];
      destruct (Z.eqb_spec (low + K) 0);
      destruct (Z.compare_spec (2 * (low + K)) (2 * K));
      try reflexivity; lia.
  - (* m = 2p *)
    exists low. split; cbn [shr_m]; rewrite ?HK1; try lia.
    unfold loc_of. destruct r, s; cbn [orb loc_of_shr_record];
      destruct (Z.eqb_spec low 0); destruct (Z.compare_spec (2 * low) (2 * K));
      try reflexivity; lia.
  - (* m = 1 *)
    exists (low + K). split; cbn [shr_m]; rewrite ?HK1; try lia.
    unfold loc_of. destruct r, s; cbn [orb loc_of_shr_record];
      destruct (Z.eqb_spec (low + K) 0);
      destruct (Z.compare_spec (2 * (low + K)) (2 * K));
      try reflexivity; lia.
Qed.

Lemma iter_shr_1_shifted (M : Z) (j : nat) (k : Z) (mrs : shr_record) (low : Z) :
  0 <= k -> shifted M k mrs low ->
  exists low', shifted M (k + Z.of_nat j) (Nat.iter j shr_1 mrs) low'.
Proof.
  intros Hk H. induction j as [|j [low' IH]].
  - exists low. now rewrite Z.add_0_r.
  - cbn [Nat.iter].
    destruct (shr_1_shifted M (k + Z.of_nat j) (Nat.iter j shr_1 mrs) low')
      as [low'' H']; [lia|exact IH|].
    exists low''. now replace (k + Z.of_nat (S j)) with (k + Z.of_nat j + 1)
      by lia.
Qed.

(** Shifting a mantissa right by [k] digits. *)
Lemma shr_shifted (M E k : Z) :
  0 <= M -> 0 <= k ->
  exists mrs low,
    shr {| shr_m := M; shr_r := false; shr_s := false |} E k = (mrs, E + k)
    /\ shifted M k mrs low.
Proof.
  intros HM Hk. destruct k as [|p|p]; try lia.
  - exists {| shr_m := M; shr_r := false; shr_s := false |}, 0.
    split; [now rewrite Z.add_0_r|now apply shifted_start].
  - cbn [shr]. rewrite iter_pos_nat.
    destruct (iter_shr_1_shifted M (Pos.to_nat p) 0
                {| shr_m := M; shr_r := false; shr_s := false |} 0
                (Z.le_refl 0) (shifted_start M HM)) as [low H].
    rewrite positive_nat_Z in H. simpl in H. now eauto.
Qed.

Lemma round_nearest_even_spec (M k : Z) (mrs : shr_record) (low : Z) :
  0 <= k -> shifted M k mrs low ->
  nearest_even M (2 ^ k)
    (round_nearest_even (shr_m mrs) (loc_of_shr_record mrs)).
Proof.
  intros Hk [Hm Hlow Heq Hloc]. rewrite Hloc.
  assert (HK : 0 < 2 ^ k) by (apply Z.pow_pos_nonneg; lia).
  set (K := 2 ^ k) in *. set (q := shr_m mrs) in *.
  unfold loc_of.
  destruct (Z.eqb_spec low 0) as [H0|Hne]; cbn [round_nearest_even].
  - split; intros; nia.
  - destruct (Z.compare_spec (2 * low) K) as [He|Hl|Hg].
    + destruct (Z.even q) eqn:Eq.
      * split; intros; try nia. exact Eq.
      * split; intros; try nia; rewrite Z.even_add, Eq; reflexivity.
    + split; intros; nia.
    + split; intros; nia.
Qed.

(** Rounding to nearest even is monotone, also across scales. *)
Lemma nearest_even_mono (A Ka a B Kb b : Z) :
  0 < Ka -> 0 < Kb ->
  nearest_even A Ka a -> nearest_even B Kb b ->
  A * Kb <= B * Ka -> a <= b.
Proof.
  intros HKa HKb [Ha1 Ha2 Ha3 Ha4] [Hb1 Hb2 Hb3 Hb4] Hle.
  destruct (Z_le_gt_dec a b) as [|Hgt]; [assumption|exfalso].
  assert (H1 : (2 * a - 1) * (Ka * Kb) <= (2 * b + 1) * (Ka * Kb)) by nia.
  assert (H2 : 2 * a - 1 <= 2 * b + 1).
  { apply Z.mul_le_mono_pos_r with (p := Ka * Kb); [nia|exact H1]. }
  assert (Hab : a = b + 1) by lia. subst a.
  assert (HA : 2 * A = (2 * (b + 1) - 1) * Ka) by nia.
  assert (HB : 2 * B = (2 * b + 1) * Kb) by nia.
  specialize (Ha4 HA). specialize (Hb3 HB).
  rewrite Z.even_add, Hb3 in Ha4. discriminate.
Qed.

(** ** Rounding a mantissa of at least 53 digits, in the normal range *)

Lemma fexp_normal (x : Z) : -1074 <= x - 53 -> fexp 53 1024 x = x - 53.
Proof. unfold fexp, emin. lia. Qed.

Lemma pow2_split (d : Z) :
  53 <= d -> 2 ^ (d - 1) = two52 * 2 ^ (d - 53) /\ 2 ^ d = two53 * 2 ^ (d - 53).
Proof.
  intros Hd. split.
  - replace (d - 1) with (52 + (d - 53)) by lia.
    rewrite Z.pow_add_r by lia. reflexivity.
  - replace d with (53 + (d - 53)) at 1 by lia.
    rewrite Z.pow_add_r by lia. reflexivity.
Qed.

Lemma binary_round_aux_normal (M : positive) (E : Z) :
  let d := Z.pos (digits2_pos M) in
  53 <= d -> -1074 <= d + E - 53 ->
  exists m',
    nearest_even (Z.pos M) (2 ^ (d - 53)) m'
    /\ two52 <= m' <= two53
    /\ binary_round_aux 53 1024 false (Z.pos M) E loc_Exact
       = pack m' (d + E - 53).
Proof.
  intros d Hd Hrange.
  unfold binary_round_aux, shr_fexp. cbn [Zdigits2 shr_record_of_loc].
  fold d. rewrite (fexp_normal (d + E)) by lia.
  replace (d + E - 53 - E) with (d - 53) by lia.
  destruct (shr_shifted (Z.pos M) E (d - 53)) as (mrs & low & Hshr & Hsh);
    [lia|lia|].
  rewrite Hshr.
  pose proof (round_nearest_even_spec (Z.pos M) (d - 53) mrs low
                ltac:(lia) Hsh) as Hne.
  set (m' := round_nearest_even (shr_m mrs) (loc_of_shr_record mrs)) in *.
  assert (HK : 0 < 2 ^ (d - 53)) by (apply Z.pow_pos_nonneg; lia).
  destruct (pow2_split d Hd) as [Hp1 Hp2].
  pose proof (digits2_pos_bounds M) as [Hlo Hhi]. fold d in Hlo, Hhi.
  rewrite Hp1 in Hlo. rewrite Hp2 in Hhi.
  destruct Hne as [Hn1 Hn2 Hn3 Hn4].
  assert (Hm' : two52 <= m' <= two53).
  { unfold two52, two53 in *. split.
    - destruct (Z_lt_le_dec m' 4503599627370496); [exfalso; nia|lia].
    - destruct (Z_lt_le_dec 9007199254740992 m'); [exfalso; nia|lia]. }
  exists m'. split; [now split|]. split; [exact Hm'|].
  replace (E + (d - 53)) with (d + E - 53) by lia.
  set (t := d + E - 53) in *.
  unfold pack. destruct (Z.ltb_spec m' two53) as [Hlt|Hge].
  - (* no carry *)
    destruct m' as [|p|p]; unfold two52 in Hm'; try lia.
    cbn [Zdigits2 shr_record_of_loc].
    assert (Hdig : Z.pos (digits2_pos p) = 53).
    { apply digits2_pos_unique. unfold two53 in Hlt. simpl. lia. }
    rewrite Hdig, (fexp_normal (53 + t)) by lia.
    replace (53 + t - 53 - t) with 0 by lia.
    cbn [shr shr_m]. change (1024 - 53) with 971. reflexivity.
  - (* carry *)
    assert (Hm : m' = two53) by lia. rewrite Hm. unfold two53.
    cbn [Zdigits2 shr_record_of_loc].
    change (Z.pos (digits2_pos 9007199254740992)) with 54.
    rewrite (fexp_normal (54 + t)) by lia.
    replace (54 + t - 53 - t) with 1 by lia.
    cbn [shr SpecFloat.iter_pos shr_1 shr_m]. change (1024 - 53) with 971.
    reflexivity.
Qed.

(** ** The order of normal numbers *)

Lemma normal_le_leb (x y : spec_float) : normal_le x y -> SFleb x y = true.
Proof.
  destruct x as [| [] | | [] m1 e1]; try contradiction;
    destruct y as [| [] | | [] m2 e2]; try contradiction;
    try reflexivity.
  intros (_ & _ & [Hlt | [-> Hle]]); unfold SFleb, SFcompare.
  - apply Z.compare_lt_iff in Hlt. now rewrite Hlt.
  - rewrite Z.compare_refl. change (Pos.compare_cont Eq m1 m2) with (m1 ?= m2)%positive.
    destruct (Pos.compare_spec m1 m2); try reflexivity. lia.
Qed.

Lemma pack_le_inf (a ta : Z) :
  two52 <= a <= two53 -> -1074 <= ta ->
  normal_le (pack a ta) (S754_infinity false).
Proof.
  intros Ha Hta. unfold pack, two52, two53 in *.
  destruct (Z.ltb_spec a 9007199254740992);
    [destruct (ta <=? 971)|destruct (ta + 1 <=? 971)]; simpl; auto;
    unfold normal, two52, two53; rewrite ?Z2Pos.id; lia.
Qed.

Lemma pack_le (a ta b tb : Z) :
  two52 <= a <= two53 -> two52 <= b <= two53 -> -1074 <= ta ->
  ta < tb \/ (ta = tb /\ a <= b) ->
  normal_le (pack a ta) (pack b tb).
Proof.
  intros Ha Hb Hta Hle. unfold pack, two52, two53 in *.
  destruct (Z.ltb_spec a 9007199254740992);
    destruct (Z.ltb_spec b 9007199254740992);
    repeat match goal with
           | |- context [?x <=? 971] => destruct (Z.leb_spec x 971)
           end;
    cbn [normal_le]; unfold normal, two52, two53; rewrite ?Z2Pos.id;
    try lia; auto.
Qed.

(** ** Rounding is monotone *)

Lemma digits2_pos_above (p : positive) (j : Z) :
  0 <= j -> 2 ^ j <= Z.pos p -> j < Z.pos (digits2_pos p).
Proof.
  intros Hj Hle. pose proof (digits2_pos_bounds p) as [_ Hhi].
  apply (Z.pow_lt_mono_r_iff 2); lia.
Qed.

Lemma binary_round_aux_mono (M1 M2 : positive) (E1 E2 : Z) :
  let d1 := Z.pos (digits2_pos M1) in
  let d2 := Z.pos (digits2_pos M2) in
  let c := Z.min E1 E2 in
  53 <= d1 -> 53 <= d2 -> -1074 <= d1 + E1 - 53 ->
  Z.pos M1 * 2 ^ (E1 - c) <= Z.pos M2 * 2 ^ (E2 - c) ->
  normal_le (binary_round_aux 53 1024 false (Z.pos M1) E1 loc_Exact)
            (binary_round_aux 53 1024 false (Z.pos M2) E2 loc_Exact).
Proof.
  intros d1 d2 c Hd1 Hd2 Hr1 Hle.
  pose proof (digits2_pos_bounds M1) as [Hlo1 _]. fold d1 in Hlo1.
  pose proof (digits2_pos_bounds M2) as [_ Hhi2]. fold d2 in Hhi2.
  assert (Hc1 : 0 <= E1 - c) by lia. assert (Hc2 : 0 <= E2 - c) by lia.
  assert (Hmag : d1 + E1 <= d2 + E2).
  { assert (H : 2 ^ (d1 - 1 + (E1 - c)) < 2 ^ (d2 + (E2 - c))).
    { rewrite !Z.pow_add_r by lia.
      assert (0 < 2 ^ (E1 - c)) by (apply Z.pow_pos_nonneg; lia).
      assert (0 < 2 ^ (E2 - c)) by (apply Z.pow_pos_nonneg; lia).
      nia. }
    apply Z.pow_lt_mono_r_iff in H; lia. }
  destruct (binary_round_aux_normal M1 E1 Hd1 Hr1) as (a & Hna & Ha & ->).
  destruct (binary_round_aux_normal M2 E2 Hd2 ltac:(fold d2; lia))
    as (b & Hnb & Hb & ->).
  fold d1 in Hna |- *. fold d2 in Hnb |- *.
  apply pack_le; try assumption.
  destruct (Z_lt_le_dec (d1 + E1) (d2 + E2)) as [Hlt|Hge]; [left; lia|].
  right. split; [lia|].
  assert (Heq : d1 + E1 = d2 + E2) by lia.
  apply (nearest_even_mono (Z.pos M1) (2 ^ (d1 - 53)) a
                           (Z.pos M2) (2 ^ (d2 - 53)) b);
    try assumption; try (apply Z.pow_pos_nonneg; lia).
  (* scale the comparison of the values to the common target exponent *)
  set (t := d1 + E1 - 53) in *.
  set (g := t - E1 - E2 + c).
  assert (Hg : 0 <= g) by (unfold g; lia).
  replace (d2 - 53) with (E1 - c + g) by (unfold g; lia).
  replace (d1 - 53) with (E2 - c + g) by (unfold g; lia).
  rewrite !Z.pow_add_r by lia.
  assert (0 < 2 ^ g) by (apply Z.pow_pos_nonneg; lia).
  nia.
Qed.

(** ** Conversion of a positive integer *)

Lemma pos_iter_xO (m d : positive) :
  Z.pos (Pos.iter xO m d) = Z.pos m * 2 ^ Z.pos d.
Proof.
  induction d as [|d IH] using Pos.peano_ind.
  - simpl. lia.
  - rewrite Pos.iter_succ, Pos2Z.inj_xO, IH, Pos2Z.inj_succ,
      Z.pow_succ_r by lia. lia.
Qed.

Lemma shl_align_spec (m : positive) (E E' : Z) :
  exists mz,
    shl_align m E E' = (mz, Z.min E E')
    /\ Z.pos mz = Z.pos m * 2 ^ (E - Z.min E E').
Proof.
  unfold shl_align. destruct (E' - E) as [|p|p] eqn:Hd.
  - exists m. replace (Z.min E E') with E by lia.
    rewrite Z.sub_diag. simpl. split; [reflexivity|lia].
  - exists m. replace (Z.min E E') with E by lia.
    rewrite Z.sub_diag. simpl. split; [reflexivity|lia].
  - exists (Pos.iter xO m p). replace (Z.min E E') with E' by lia.
    split; [reflexivity|]. rewrite pos_iter_xO. f_equal. f_equal. lia.
Qed.

Lemma digits2_pos_scaled (m mz : positive) (j : Z) :
  0 <= j -> Z.pos mz = Z.pos m * 2 ^ j ->
  Z.pos (digits2_pos mz) = Z.pos (digits2_pos m) + j.
Proof.
  intros Hj Hmz. apply digits2_pos_unique. rewrite Hmz.
  pose proof (digits2_pos_bounds m) as [Hlo Hhi].
  replace (Z.pos (digits2_pos m) + j - 1)
    with (Z.pos (digits2_pos m) - 1 + j) by lia.
  rewrite !Z.pow_add_r by lia.
  assert (0 < 2 ^ j) by (apply Z.pow_pos_nonneg; lia). nia.
Qed.

Lemma binary_round_mono (p1 p2 : positive) :
  (p1 <= p2)%positive ->
  normal_le (binary_round 53 1024 false p1 0)
            (binary_round 53 1024 false p2 0).
Proof.
  intros Hle. unfold binary_round.
  set (d1 := Z.pos (digits2_pos p1)). set (d2 := Z.pos (digits2_pos p2)).
  rewrite !fexp_normal by lia.
  destruct (shl_align_spec p1 0 (d1 + 0 - 53)) as (m1 & -> & Hm1).
  destruct (shl_align_spec p2 0 (d2 + 0 - 53)) as (m2 & -> & Hm2).
  set (e1 := Z.min 0 (d1 + 0 - 53)) in *.
  set (e2 := Z.min 0 (d2 + 0 - 53)) in *.
  pose proof (digits2_pos_scaled p1 m1 (0 - e1) ltac:(lia) Hm1) as Hdig1.
  pose proof (digits2_pos_scaled p2 m2 (0 - e2) ltac:(lia) Hm2) as Hdig2.
  fold d1 in Hdig1. fold d2 in Hdig2.
  apply binary_round_aux_mono; try lia.
  rewrite Hm1, Hm2, <- !Z.mul_assoc, <- !Z.pow_add_r by lia.
  replace (0 - e1 + (e1 - Z.min e1 e2)) with (0 - Z.min e1 e2) by lia.
  replace (0 - e2 + (e2 - Z.min e1 e2)) with (0 - Z.min e1 e2) by lia.
  apply Z.mul_le_mono_nonneg_r; [apply Z.pow_nonneg|]; lia.
Qed.

(** ** Multiplication by a positive normal constant *)

Lemma binary_round_aux_inf_or_normal (M : positive) (E : Z) :
  53 <= Z.pos (digits2_pos M) -> -1074 <= Z.pos (digits2_pos M) + E - 53 ->
  normal_le (binary_round_aux 53 1024 false (Z.pos M) E loc_Exact)
            (S754_infinity false).
Proof.
  intros Hd Hr.
  destruct (binary_round_aux_normal M E Hd Hr) as (a & _ & Ha & ->).
  now apply pack_le_inf.
Qed.

Lemma SFmul_mono (mc : positive) (ec : Z) (x y : spec_float) :
  two52 <= Z.pos mc < two53 -> -52 <= ec ->
  normal_le x y ->
  normal_le (SFmul 53 1024 x (S754_finite false mc ec))
            (SFmul 53 1024 y (S754_finite false mc ec)).
Proof.
  intros Hc Hec.
  destruct x as [| [] | | [] m1 e1]; try contradiction;
    destruct y as [| [] | | [] m2 e2]; try contradiction;
    cbn [normal_le SFmul xorb]; try tauto.
  - (* finite, infinite *)
    intros [Hm1 He1]. unfold two52, two53 in *.
    assert (104 < Z.pos (digits2_pos (m1 * mc))).
    { apply digits2_pos_above; [lia|].
      change (2 ^ 104) with (4503599627370496 * 4503599627370496).
      rewrite Pos2Z.inj_mul. nia. }
    apply binary_round_aux_inf_or_normal; lia.
  - (* finite, finite *)
    intros ([Hm1 He1] & [Hm2 He2] & Hord). unfold two52, two53 in *.
    assert (104 < Z.pos (digits2_pos (m1 * mc))).
    { apply digits2_pos_above; [lia|].
      change (2 ^ 104) with (4503599627370496 * 4503599627370496).
      rewrite Pos2Z.inj_mul. nia. }
    assert (104 < Z.pos (digits2_pos (m2 * mc))).
    { apply digits2_pos_above; [lia|].
      change (2 ^ 104) with (4503599627370496 * 4503599627370496).
      rewrite Pos2Z.inj_mul. nia. }
    apply binary_round_aux_mono; try lia.
    rewrite !Pos2Z.inj_mul.
    destruct Hord as [Hlt|[-> Hle]].
    + replace (Z.min (e1 + ec) (e2 + ec)) with (e1 + ec) by lia.
      rewrite Z.sub_diag.
      replace (e2 + ec - (e1 + ec)) with (1 + (e2 - e1 - 1)) by lia.
      rewrite Z.pow_add_r by lia.
      assert (0 < 2 ^ (e2 - e1 - 1)) by (apply Z.pow_pos_nonneg; lia).
      change (2 ^ 0) with 1. change (2 ^ 1) with 2.
      set (P := 2 ^ (e2 - e1 - 1)) in *.
      assert (Hstep1 : Z.pos m1 * Z.pos mc <= 2 * Z.pos m2 * Z.pos mc)
        by nia.
      assert (Hstep2 : 2 * Z.pos m2 * Z.pos mc
                       <= 2 * Z.pos m2 * Z.pos mc * P) by nia.
      lia.
    + rewrite Z.min_id, Z.sub_diag. change (2 ^ 0) with 1. nia.
Qed.

End Rounding.

(* ===================================================================== *)
(** * Token estimates and running sums *)
(* ===================================================================== *)

(** The literals: [lit_1_33] is the correctly rounded quotient of 133 by
    100, within half a unit in the last place of 133/100; the default
    [temperature] is the correctly rounded quotient of 1 by 10. *)
Example lit_1_33_nearest :
  SFdiv Float64.prec Float64.emax (Float64.of_Z 133) (Float64.of_Z 100)
  = Float64.lit_1_33
  /\ Z.abs (5989787504402760 * 100 - 133 * 2 ^ 52) * 2 <= 100.
Proof. split; [vm_compute; reflexivity|vm_compute; discriminate]. Qed.

Example default_temperature_nearest :
  SFdiv Float64.prec Float64.emax (Float64.of_Z 1) (Float64.of_Z 10)
  = temperature default_config.
Proof. vm_compute. reflexivity. Qed.

(** Three words: 3.99, that is 8984681256604140 * 2^-51. *)
Example estimate_tokens_three_words :
  estimate_tokens "risk weighted   assets"
  = S754_finite false 8984681256604140 (-51).
Proof. vm_compute. reflexivity. Qed.

Lemma estimate_tokens_nonneg text :
  Float64Spec.nonneg (estimate_tokens text) = true.
Proof.
  unfold estimate_tokens.
  apply Float64Facts.mul_lit_nonneg, Float64Facts.of_Z_nonneg. lia.
Qed.

Lemma fold_add_nonneg l acc :
  Float64Spec.nonneg acc = true ->
  Float64Spec.nonneg
    (fold_left Float64.add (map estimate_tokens l) acc) = true.
Proof.
  revert acc. induction l as [|c l IH]; intros acc Hacc; simpl; auto.
  apply IH, Float64Facts.add_nonneg; auto using estimate_tokens_nonneg.
Qed.

Lemma total_estimate_nonneg l : Float64Spec.nonneg (total_estimate l) = true.
Proof. now apply fold_add_nonneg. Qed.

Lemma total_estimate_snoc l c :
  total_estimate (l ++ [c]) =
  Float64.add (total_estimate l) (estimate_tokens c).
Proof. unfold total_estimate. now rewrite map_app, fold_left_app. Qed.

Lemma total_estimate_single c : total_estimate [c] = estimate_tokens c.
Proof. apply Float64Facts.add_zero_l, estimate_tokens_nonneg. Qed.

(* ===================================================================== *)
(** * create_batches *)
(* ===================================================================== *)

Section BatchPlanner.
Variable max_content : Z.

Abbreviation step := (batch_step max_content).

(** What one step does to the fragments held by the state. *)
Lemma batch_step_concat st chunk :
  concat (batches (step st chunk)) ++ current_batch (step st chunk)
  = (concat (batches st) ++ current_batch st) ++ [chunk].
Proof.
  unfold batch_step.
  destruct (_ && _); simpl.
  - rewrite concat_app. simpl. now rewrite app_nil_r.
  - now rewrite app_assoc.
Qed.

Lemma batch_fold_concat chunks st :
  let st' := fold_left step chunks st in
  concat (batches st') ++ current_batch st'
  = (concat (batches st) ++ current_batch st) ++ chunks.
Proof.
  revert st. induction chunks as [|c chunks IH]; intros st; simpl.
  - now rewrite app_nil_r.
  - rewrite IH, batch_step_concat. now rewrite <- app_assoc.
Qed.

Lemma batch_finish_concat st :
  concat (batch_finish st) = concat (batches st) ++ current_batch st.
Proof.
  unfold batch_finish. destruct (current_batch st) eqn:E.
  - now rewrite app_nil_r.
  - rewrite concat_app. simpl. now rewrite app_nil_r.
Qed.

(** No closed batch is empty. *)
Lemma batch_step_nonempty st chunk :
  Forall (fun b => b <> []) (batches st) ->
  Forall (fun b => b <> []) (batches (step st chunk)).
Proof.
  intros H. unfold batch_step.
  destruct (Float64.gtb_Z _ _); simpl; auto.
  case_bool_decide; simpl; auto.
  apply Forall_app; split; auto.
Qed.

Lemma batch_fold_nonempty chunks st :
  Forall (fun b => b <> []) (batches st) ->
  Forall (fun b => b <> []) (batches (fold_left step chunks st)).
Proof.
  revert st. induction chunks as [|c chunks IH]; intros st H; simpl; auto.
  apply IH, batch_step_nonempty, H.
Qed.

Lemma batch_finish_nonempty st :
  Forall (fun b => b <> []) (batches st) ->
  Forall (fun b => b <> []) (batch_finish st).
Proof.
  intros H. unfold batch_finish. destruct (current_batch st) eqn:E; auto.
  apply Forall_app; split; auto.
Qed.

End BatchPlanner.

Lemma create_batches_concat (cfg : RefineConfig) (chunks : list string) :
  concat (create_batches cfg chunks) = chunks.
Proof.
  unfold create_batches. rewrite batch_finish_concat.
  now rewrite (batch_fold_concat (max_content_tokens cfg) chunks batch_init).
Qed.

(** C1. Batch partition invariant: for every configuration (whatever its
    budget [max_content_tokens], positive or not) and every list of
    fragments, the batches of [create_batches], concatenated in order,
    are the input list; and no batch is empty. *)
Theorem create_batches_partition (cfg : RefineConfig) (chunks : list string) :
  concat (create_batches cfg chunks) = chunks
  /\ Forall (fun b => b <> []) (create_batches cfg chunks).
Proof.
  split.
  - apply create_batches_concat.
  - unfold create_batches.
    apply batch_finish_nonempty, batch_fold_nonempty. constructor.
Qed.

(** ** The budget of a batch *)

Section BatchBudget.
Variable max_content : Z.

Abbreviation step := (batch_step max_content).

Lemma within_budget_single c : within_budget max_content [c].
Proof.
  destruct (Float64Facts.leb_or_gtb (estimate_tokens c) max_content
              (estimate_tokens_nonneg c)) as [H|H].
  - left. now rewrite total_estimate_single.
  - right. now exists c.
Qed.

Lemma budget_inv_init : budget_inv max_content batch_init.
Proof. split; simpl; [constructor|reflexivity|congruence]. Qed.

Lemma budget_inv_step st chunk : budget_inv max_content st -> budget_inv max_content (step st chunk).
Proof.
  intros [Hclosed Htok Hopen]. unfold batch_step.
  destruct (Float64.gtb_Z _ _) eqn:Hgt; simpl.
  - case_bool_decide as Hnil; simpl.
    + (* the open batch is empty: the chunk opens it *)
      rewrite Hnil in *. split; simpl; auto.
      * now rewrite Htok, <- total_estimate_snoc.
      * intros _. apply within_budget_single.
    + (* over budget: close the open batch *)
      split; simpl.
      * apply Forall_app; split; auto.
      * symmetry. apply total_estimate_single.
      * intros _. apply within_budget_single.
  - split; simpl; auto.
    + now rewrite Htok, <- total_estimate_snoc.
    + intros _. left. rewrite total_estimate_snoc, <- Htok.
      apply Float64Facts.gtb_Z_false_leb; auto.
      rewrite Htok. apply Float64Facts.add_nonneg;
        auto using total_estimate_nonneg, estimate_tokens_nonneg.
Qed.

Lemma budget_inv_fold chunks st :
  budget_inv max_content st -> budget_inv max_content (fold_left step chunks st).
Proof.
  revert st. induction chunks as [|c chunks IH]; intros st H; simpl; auto.
  apply IH, budget_inv_step, H.
Qed.

Lemma budget_inv_finish st :
  budget_inv max_content st -> Forall (within_budget max_content) (batch_finish st).
Proof.
  intros [Hclosed _ Hopen]. unfold batch_finish.
  destruct (current_batch st) as [|c b] eqn:E; [exact Hclosed|].
  apply Forall_app; split; [exact Hclosed|].
  constructor; [|constructor]. apply Hopen. congruence.
Qed.

End BatchBudget.

(** C2. Batch budget invariant: every batch that [create_batches] returns
    has a summed estimated token cost (the estimates added from left to
    right, as the planner's running count adds them) of at most
    [max_content_tokens], or it consists of exactly one fragment whose own
    estimate exceeds [max_content_tokens]. *)
Theorem create_batches_budget (cfg : RefineConfig) (chunks : list string) :
  Forall (fun b =>
            Float64.leb_Z (total_estimate b) (max_content_tokens cfg) = true
            \/ exists f, b = [f]
                 /\ Float64.gtb_Z (estimate_tokens f) (max_content_tokens cfg)
                    = true)
         (create_batches cfg chunks).
Proof.
  unfold create_batches.
  apply (budget_inv_finish (max_content_tokens cfg)), budget_inv_fold,
    budget_inv_init.
Qed.

(** An oversized fragment is never split: it stands alone in its batch,
    whatever precedes or follows it. *)
Example oversized_alone :
  create_batches
    {| model_name := "m"; max_tokens_per_request := 5;
       response_reserve_tokens := 1; prompt_overhead_tokens := 1;
       average_chunk_tokens := 1; temperature := Float64.zero |}
    ["a b"; "c d e f"; "g"; "h"] = [["a b"]; ["c d e f"]; ["g"; "h"]].
Proof. vm_compute. reflexivity. Qed.

(** C9. [average_chunk_tokens] does not interfere with packing: two
    configurations that agree on every other field give the same batches
    for every fragment list. *)
Theorem create_batches_average_noninterference
    (cfg1 cfg2 : RefineConfig) (chunks : list string) :
  model_name cfg1 = model_name cfg2 ->
  max_tokens_per_request cfg1 = max_tokens_per_request cfg2 ->
  response_reserve_tokens cfg1 = response_reserve_tokens cfg2 ->
  prompt_overhead_tokens cfg1 = prompt_overhead_tokens cfg2 ->
  temperature cfg1 = temperature cfg2 ->
  create_batches cfg1 chunks = create_batches cfg2 chunks.
Proof.
  intros _ Hmax Hres Hov _. unfold create_batches, max_content_tokens.
  now rewrite Hmax, Hres, Hov.
Qed.

Lemma create_batches_average_noninterference_witness :
  chunks_per_batch default_config <> chunks_per_batch (config_with_average 7)
  /\ create_batches default_config ["a b"; "c"]
     = create_batches (config_with_average 7) ["a b"; "c"].
Proof.
  split.
  - vm_compute. congruence.
  - apply (create_batches_average_noninterference
             default_config (config_with_average 7) ["a b"; "c"]);
      reflexivity.
Defined.

(* ===================================================================== *)
(** * prioritize_chunks *)
(* ===================================================================== *)

Section SortedFacts.
Context {A : Type} (key : A -> nat).

Lemma insert_desc_perm x l : insert_desc key x l ≡ₚ x :: l.
Proof.
  induction l as [|y l IH]; simpl; [reflexivity|].
  destruct (key x <? key y)%nat; [|reflexivity].
  rewrite IH. apply Permutation_swap.
Qed.

Lemma sorted_reverse_perm l : sorted_reverse key l ≡ₚ l.
Proof.
  induction l as [|x l IH]; simpl; [reflexivity|].
  now rewrite insert_desc_perm, IH.
Qed.

Lemma insert_desc_sorted x l :
  StronglySorted (desc key) l -> StronglySorted (desc key) (insert_desc key x l).
Proof.
  induction 1 as [|y l Hl IH Hy]; simpl.
  - repeat constructor.
  - destruct (Nat.ltb_spec (key x) (key y)) as [Hlt|Hge].
    + constructor; [exact IH|].
      rewrite insert_desc_perm. constructor; [unfold desc; lia|exact Hy].
    + constructor; [constructor; assumption|].
      constructor; [exact Hge|].
      eapply Forall_impl; [exact Hy|]. unfold desc. simpl. lia.
Qed.

Lemma sorted_reverse_sorted l : StronglySorted (desc key) (sorted_reverse key l).
Proof.
  induction l as [|x l IH]; simpl; [constructor|].
  now apply insert_desc_sorted.
Qed.

(** Stability: the elements of one key keep their order. *)
Lemma insert_desc_filter k x l :
  filter (fun a => key a = k) (insert_desc key x l)
  = filter (fun a => key a = k) (x :: l).
Proof.
  induction l as [|y l IH]; simpl; [reflexivity|].
  destruct (Nat.ltb_spec (key x) (key y)) as [Hlt|Hge]; [|reflexivity].
  rewrite (filter_cons _ y (insert_desc key x l)), IH.
  rewrite !filter_cons.
  repeat case_decide; try reflexivity; lia.
Qed.

Lemma sorted_reverse_filter k l :
  filter (fun a => key a = k) (sorted_reverse key l)
  = filter (fun a => key a = k) l.
Proof.
  induction l as [|x l IH]; simpl; [reflexivity|].
  now rewrite insert_desc_filter, !filter_cons, IH.
Qed.

Lemma sorted_reverse_all_equal k l :
  Forall (fun a => key a = k) l -> sorted_reverse key l = l.
Proof.
  induction 1 as [|x l Hx Hl IH]; simpl; [reflexivity|].
  rewrite IH. destruct Hl as [|y l Hy Hl]; simpl; [reflexivity|].
  rewrite Hx, Hy, Nat.ltb_irrefl. reflexivity.
Qed.

(** Sorting the pairs (element, key) on their second component and
    dropping it afterwards sorts the elements on their key. *)
Lemma insert_desc_decorated x l :
  insert_desc snd (x, key x) (map (fun a => (a, key a)) l)
  = map (fun a => (a, key a)) (insert_desc key x l).
Proof.
  induction l as [|y l IH]; simpl; [reflexivity|].
  destruct (key x <? key y)%nat; simpl; [now rewrite IH|reflexivity].
Qed.

Lemma sorted_reverse_decorated l :
  map fst (sorted_reverse snd (map (fun a => (a, key a)) l))
  = sorted_reverse key l.
Proof.
  assert (H : sorted_reverse snd (map (fun a => (a, key a)) l)
              = map (fun a => (a, key a)) (sorted_reverse key l)).
  { induction l as [|x l IH]; simpl; [reflexivity|].
    now rewrite IH, insert_desc_decorated. }
  rewrite H, map_map. simpl. apply map_id.
Qed.

End SortedFacts.

Lemma prioritize_chunks_sorted_reverse chunks user_query :
  prioritize_chunks chunks user_query
  = sorted_reverse (relevance_score (word_set user_query)) chunks.
Proof. apply sorted_reverse_decorated. Qed.

(** The score counts the distinct lowercase words of the query that occur
    among the lowercase words of the fragment. *)
Lemma relevance_score_count (user_query chunk : string) :
  relevance_score (word_set user_query) chunk
  = length (filter (fun w => w ∈ PyStr.split (PyStr.lower chunk))
                   (remove_dups (PyStr.split (PyStr.lower user_query)))).
Proof.
  unfold relevance_score, word_set.
  set (lq := PyStr.split (PyStr.lower user_query)).
  set (lc := PyStr.split (PyStr.lower chunk)).
  rewrite <- (size_list_to_set (C := gset string)
                (filter (fun w => w ∈ lc) (remove_dups lq))).
  - f_equal. apply set_eq. intros w.
    rewrite elem_of_intersection, !elem_of_list_to_set, list_elem_of_filter,
      elem_of_remove_dups.
    tauto.
  - apply NoDup_filter, NoDup_remove_dups.
Qed.

(** C7. Prioritization order: [prioritize_chunks] returns a permutation of
    the fragments, sorted in descending order of the score, where the score
    of a fragment is the number of distinct lowercase query words that
    occur among its lowercase words; fragments of equal score keep their
    original relative order; when every fragment has score zero the output
    is the input; and for the query [capital requirements] the three
    fragments of the example come out second, first, third. *)
Theorem prioritize_chunks_order (chunks : list string) (user_query : string) :
  let score := relevance_score (word_set user_query) in
  let out := prioritize_chunks chunks user_query in
  (forall chunk,
      score chunk
      = length (filter (fun w => w ∈ PyStr.split (PyStr.lower chunk))
                       (remove_dups (PyStr.split (PyStr.lower user_query)))))
  /\ out ≡ₚ chunks
  /\ StronglySorted (fun a b => (score b <= score a)%nat) out
  /\ (forall k, filter (fun c => score c = k) out
                = filter (fun c => score c = k) chunks)
  /\ (Forall (fun c => score c = 0%nat) chunks -> out = chunks)
  /\ prioritize_chunks
       ["the capital base"; "requirements and capital adequacy";
        "unrelated text"] "capital requirements"
     = ["requirements and capital adequacy"; "the capital base";
        "unrelated text"].
Proof.
  intros score out. subst out. rewrite prioritize_chunks_sorted_reverse.
  fold score. refine (conj _ (conj _ (conj _ (conj _ (conj _ _))))).
  - intros chunk. apply relevance_score_count.
  - apply sorted_reverse_perm.
  - apply (sorted_reverse_sorted score).
  - intros k. apply sorted_reverse_filter.
  - apply sorted_reverse_all_equal.
  - vm_compute. reflexivity.
Qed.

(** Fragments without any word of the query come back in input order. *)
Lemma prioritize_chunks_order_witness :
  Forall (fun c => relevance_score (word_set "capital requirements") c = 0%nat)
         ["unrelated text"; "the base"; "adequacy"]
  /\ prioritize_chunks ["unrelated text"; "the base"; "adequacy"]
                       "capital requirements"
     = ["unrelated text"; "the base"; "adequacy"].
Proof.
  assert (H : Forall (fun c => relevance_score
                                 (word_set "capital requirements") c = 0%nat)
                     ["unrelated text"; "the base"; "adequacy"]).
  { repeat constructor. }
  split; [exact H|].
  exact (proj1 (proj2 (proj2 (proj2 (proj2
           (prioritize_chunks_order ["unrelated text"; "the base"; "adequacy"]
                                    "capital requirements"))))) H).
Defined.

(* ===================================================================== *)
(** * Running sums never decrease *)
(* ===================================================================== *)

Module CountFacts.
Import Float64Spec.

Lemma normal_le_refl (x : spec_float) :
  normal_le x (S754_infinity false) -> normal_le x x.
Proof.
  destruct x as [| [] | | [] m e]; cbn [normal_le]; try tauto.
  intros H. split; [exact H|]. split; [exact H|]. right. lia.
Qed.

Lemma normal_le_right (x y : spec_float) :
  normal_le x y -> normal_le y (S754_infinity false).
Proof.
  destruct x as [| [] | | [] m1 e1]; try contradiction;
    destruct y as [| [] | | [] m2 e2]; try contradiction;
    cbn [normal_le]; tauto.
Qed.

Lemma normal_le_left (x y : spec_float) :
  normal_le x y -> normal_le x (S754_infinity false).
Proof.
  destruct x as [| [] | | [] m1 e1]; try contradiction;
    destruct y as [| [] | | [] m2 e2]; try contradiction;
    cbn [normal_le]; tauto.
Qed.

Lemma normal_le_trans (x y z : spec_float) :
  normal_le x y -> normal_le y z -> normal_le x z.
Proof.
  destruct x as [| [] | | [] m1 e1]; try contradiction;
    destruct y as [| [] | | [] m2 e2]; try contradiction;
    destruct z as [| [] | | [] m3 e3]; try contradiction;
    cbn [normal_le]; try tauto.
  intros (H1 & H2 & H12) (_ & H3 & H23).
  split; [exact H1|]. split; [exact H3|]. lia.
Qed.

(** An exact quotient rounds to itself. *)
Lemma nearest_even_exact (m K m' : Z) :
  0 < K -> nearest_even (m * K) K m' -> m' = m.
Proof. intros HK [H1 H2 _ _]. nia. Qed.

Lemma digits2_pos_normal (m : positive) :
  two52 <= Z.pos m < two53 -> Z.pos (digits2_pos m) = 53.
Proof.
  intros H. apply Rounding.digits2_pos_unique.
  unfold two52, two53 in H. simpl. lia.
Qed.

(** A normal number put on a lower exponent rounds to itself, or to
    infinity when its exponent is out of range. *)
Lemma binary_round_aux_representable (m a : positive) (e ez : Z) :
  normal m e -> ez <= e -> Z.pos a = Z.pos m * 2 ^ (e - ez) ->
  binary_round_aux 53 1024 false (Z.pos a) ez loc_Exact
  = if e <=? 971 then S754_finite false m e else S754_infinity false.
Proof.
  intros [Hm He] Hez Ha.
  pose proof (Rounding.digits2_pos_scaled m a (e - ez) ltac:(lia) Ha) as Hd.
  rewrite (digits2_pos_normal m Hm) in Hd.
  destruct (Rounding.binary_round_aux_normal a ez) as (m' & Hne & _ & ->);
    [lia|lia|].
  rewrite Hd in Hne |- *.
  replace (53 + (e - ez) - 53) with (e - ez) in Hne by lia.
  rewrite Ha in Hne.
  apply nearest_even_exact in Hne; [|apply Z.pow_pos_nonneg; lia].
  subst m'. replace (53 + (e - ez) + ez - 53) with e by lia.
  unfold pack. destruct (Z.ltb_spec (Z.pos m) two53); [|lia].
  reflexivity.
Qed.

(** Adding a token count to a normal number does not make it smaller. *)
Lemma add_ge (x y : spec_float) :
  normal_le x (S754_infinity false) -> count_like y ->
  normal_le x (Float64.add x y).
Proof.
  intros Hx [-> | Hy].
  - destruct x as [| [] | | [] m e]; try contradiction;
      cbn; [exact I|]. apply (normal_le_refl (S754_finite false m e) Hx).
  - destruct x as [| [] | | [] mx ex]; try contradiction;
      destruct y as [| [] | | [] my ey]; try contradiction;
      try exact I; try exact Hx.
    cbn [normal_le] in Hx, Hy.
    unfold Float64.add, SFadd, Float64.prec, Float64.emax.
    cbn [cond_Zopp].
    set (ez := Z.min ex ey).
    destruct (Rounding.shl_align_spec mx ex ez) as (a & Ha & Hav).
    destruct (Rounding.shl_align_spec my ey ez) as (b & Hb & Hbv).
    rewrite Ha, Hb. cbn [fst].
    replace (Z.min ex ez) with ez in Hav by (unfold ez; lia).
    change (Z.pos a + Z.pos b) with (Z.pos (a + b)).
    cbn [binary_normalize]. unfold binary_round.
    pose proof (Rounding.digits2_pos_scaled mx a (ex - ez)
                  ltac:(unfold ez; lia) Hav) as Hda.
    rewrite (digits2_pos_normal mx (proj1 Hx)) in Hda.
    assert (Hdab : 53 + (ex - ez) <= Z.pos (digits2_pos (a + b))).
    { assert (H : 53 + (ex - ez) - 1 < Z.pos (digits2_pos (a + b))).
      { apply Rounding.digits2_pos_above; [unfold ez; lia|].
        pose proof (Rounding.digits2_pos_bounds a) as [Hlo _].
        rewrite Hda in Hlo. rewrite Pos2Z.inj_add. lia. }
      lia. }
    destruct Hx as [Hmx Hex].
    rewrite Rounding.fexp_normal by (unfold ez in *; lia).
    destruct (Rounding.shl_align_spec (a + b) ez
                (Z.pos (digits2_pos (a + b)) + ez - 53))
      as (c & Hc & Hcv).
    rewrite Hc.
    replace (Z.min ez (Z.pos (digits2_pos (a + b)) + ez - 53)) with ez
      in Hcv |- * by (unfold ez in *; lia).
    rewrite Z.sub_diag, Z.mul_1_r in Hcv. injection Hcv as ->.
    pose proof (Rounding.binary_round_aux_mono a (a + b) ez ez) as Hmono.
    cbv zeta in Hmono. rewrite Hda in Hmono.
    specialize (Hmono ltac:(unfold ez; lia) ltac:(unfold ez in *; lia)
                      ltac:(unfold ez in *; lia)).
    rewrite Z.min_id, Z.sub_diag in Hmono.
    specialize (Hmono ltac:(rewrite Pos2Z.inj_add; lia)).
    rewrite (binary_round_aux_representable mx a ex ez) in Hmono;
      [|split; assumption|unfold ez; lia|exact Hav].
    destruct (ex <=? 971); [exact Hmono|].
    destruct (binary_round_aux 53 1024 false (Z.pos (a + b)) ez loc_Exact)
      as [| [] | | [] m e]; try contradiction.
    cbn [normal_le]. split; assumption.
Qed.

Lemma count_like_nonneg (x : spec_float) : count_like x -> nonneg x = true.
Proof.
  intros [-> | H]; [reflexivity|].
  destruct x as [| [] | | [] m e]; try contradiction; reflexivity.
Qed.

Lemma count_add (x y : spec_float) :
  count_like x -> count_like y ->
  count_like (Float64.add x y) /\ count_le x (Float64.add x y).
Proof.
  intros Hx Hy. destruct Hx as [-> | Hx].
  - rewrite Float64Facts.add_zero_l by now apply count_like_nonneg.
    split; [exact Hy|]. left. auto.
  - pose proof (add_ge x y Hx Hy) as H.
    split; [right; apply (normal_le_right _ _ H)|right; exact H].
Qed.

Lemma count_le_refl (x : spec_float) : count_like x -> count_le x x.
Proof.
  intros [-> | H]; [left; split; [reflexivity|now left]|].
  right. now apply normal_le_refl.
Qed.

Lemma count_le_trans (x y z : spec_float) :
  count_le x y -> count_le y z -> count_le x z.
Proof.
  intros [[-> Hy] | Hxy] [[-> Hz] | Hyz].
  - left. auto.
  - left. split; [reflexivity|]. right. apply (normal_le_right _ _ Hyz).
  - exfalso. unfold Float64.zero in Hxy.
    destruct x as [| [] | | [] m e]; exact Hxy.
  - right. apply (normal_le_trans _ _ _ Hxy Hyz).
Qed.

End CountFacts.

Lemma estimate_tokens_count_like (text : string) :
  count_like (estimate_tokens text).
Proof.
  unfold estimate_tokens.
  destruct (length (PyStr.split text)) as [|n]; [left; reflexivity|].
  right. apply (CountFacts.normal_le_left _
                  (Float64.mul (Float64.of_Z (Z.of_nat (S n)))
                               Float64.lit_1_33)).
  unfold Float64.mul, Float64.lit_1_33, Float64.of_Z, Float64.prec,
    Float64.emax.
  apply Rounding.SFmul_mono;
    [unfold Float64Spec.two52, Float64Spec.two53; lia|lia|].
  cbn [Z.of_nat binary_normalize].
  apply Rounding.binary_round_mono. lia.
Qed.

Lemma total_estimate_count_like (l : list string) :
  count_like (total_estimate l).
Proof.
  induction l as [|c l IH] using rev_ind; [left; reflexivity|].
  rewrite total_estimate_snoc.
  apply CountFacts.count_add; [exact IH|apply estimate_tokens_count_like].
Qed.

(** The running sum over a prefix is at most the sum over the list. *)
Lemma total_estimate_prefix (l l' : list string) :
  count_le (total_estimate l) (total_estimate (l ++ l')).
Proof.
  induction l' as [|c l' IH] using rev_ind.
  - rewrite app_nil_r. apply CountFacts.count_le_refl,
      total_estimate_count_like.
  - rewrite app_assoc, total_estimate_snoc.
    apply (CountFacts.count_le_trans _ _ _ IH).
    apply CountFacts.count_add;
      [apply total_estimate_count_like|apply estimate_tokens_count_like].
Qed.

(** [x <= n] for a positive finite [x], on a common scale. *)
Lemma leb_Z_finite (m : positive) (e n k : Z) :
  0 <= k -> 0 <= e + k ->
  Float64.leb_Z (S754_finite false m e) n = true
  <-> Z.pos m * 2 ^ (e + k) <= n * 2 ^ k.
Proof.
  intros Hk Hek. unfold Float64.leb_Z, Float64.compare_Z.
  assert (Hpk : 0 < 2 ^ k) by (apply Z.pow_pos_nonneg; lia).
  destruct (Z.leb_spec 0 e) as [He|He].
  - rewrite Z.pow_add_r by lia.
    assert (0 < 2 ^ e) by (apply Z.pow_pos_nonneg; lia).
    destruct (Z.compare_spec (Z.pos m * 2 ^ e) n); split; intros H';
      try reflexivity; try discriminate; nia.
  - replace k with (- e + (e + k)) at 2 by lia.
    rewrite (Z.pow_add_r 2 (- e)) by lia.
    assert (0 < 2 ^ (e + k)) by (apply Z.pow_pos_nonneg; lia).
    destruct (Z.compare_spec (Z.pos m) (n * 2 ^ (- e))); split; intros H';
      try reflexivity; try discriminate; nia.
Qed.

Lemma leb_Z_count_le (x y : Float64.float) (n : Z) :
  count_le x y -> Float64.leb_Z y n = true -> Float64.leb_Z x n = true.
Proof.
  intros [[-> Hy] | Hxy] Hle.
  - (* zero *)
    destruct Hy as [-> | Hy]; [exact Hle|].
    destruct y as [| [] | | [] m e]; try contradiction; try discriminate.
    apply (leb_Z_finite m e n (Z.max 0 (- e))) in Hle; try lia.
    assert (0 < 2 ^ (e + Z.max 0 (- e))) by (apply Z.pow_pos_nonneg; lia).
    assert (0 < 2 ^ Z.max 0 (- e)) by (apply Z.pow_pos_nonneg; lia).
    unfold Float64.leb_Z, Float64.zero, Float64.compare_Z.
    destruct (Z.compare_spec 0 n); try reflexivity. nia.
  - destruct x as [| [] | | [] m1 e1]; try contradiction;
      destruct y as [| [] | | [] m2 e2]; try contradiction;
      try discriminate.
    destruct Hxy as ([Hm1 _] & [Hm2 _] & Hord).
    set (k := Z.max 0 (Z.max (- e1) (- e2))).
    apply (leb_Z_finite m2 e2 n k) in Hle; try (unfold k; lia).
    apply (leb_Z_finite m1 e1 n k); try (unfold k; lia).
    refine (Z.le_trans _ _ _ _ Hle).
    unfold Float64Spec.two52, Float64Spec.two53 in *.
    destruct Hord as [Hlt | [-> Hm]].
    + replace (e2 + k) with (1 + (e2 - e1 - 1) + (e1 + k)) by lia.
      rewrite (Z.pow_add_r 2 (1 + (e2 - e1 - 1)) (e1 + k))
        by (unfold k; lia).
      rewrite (Z.pow_add_r 2 1 (e2 - e1 - 1)) by lia.
      assert (0 < 2 ^ (e1 + k)) by (apply Z.pow_pos_nonneg; unfold k; lia).
      assert (0 < 2 ^ (e2 - e1 - 1)) by (apply Z.pow_pos_nonneg; lia).
      change (2 ^ 1) with 2.
      set (P := 2 ^ (e1 + k)) in *. set (Q := 2 ^ (e2 - e1 - 1)) in *.
      assert (Z.pos m1 * P <= 2 * Z.pos m2 * P) by nia.
      assert (2 * Z.pos m2 * P <= 2 * Z.pos m2 * P * Q) by nia.
      lia.
    + apply Z.mul_le_mono_nonneg_r; [apply Z.pow_nonneg|]; lia.
Qed.

(** The planner's loop while the total stays within the budget: nothing
    is closed. *)
Lemma batch_fold_within (max_content : Z) (chunks seen : list string) :
  Float64.leb_Z (total_estimate (seen ++ chunks)) max_content = true ->
  fold_left (batch_step max_content) chunks
    {| batches := []; current_batch := seen;
       current_tokens := total_estimate seen |}
  = {| batches := []; current_batch := seen ++ chunks;
       current_tokens := total_estimate (seen ++ chunks) |}.
Proof.
  revert seen. induction chunks as [|c chunks IH]; intros seen Hle.
  - now rewrite app_nil_r.
  - cbn [fold_left]. unfold batch_step at 2.
    cbn [current_tokens current_batch batches].
    rewrite <- total_estimate_snoc.
    assert (Hpre : Float64.leb_Z (total_estimate (seen ++ [c])) max_content
                   = true).
    { apply (leb_Z_count_le _ (total_estimate ((seen ++ [c]) ++ chunks)));
        [apply total_estimate_prefix|].
      now rewrite <- app_assoc. }
    rewrite (Float64Facts.leb_Z_not_gtb _ _ Hpre). cbn [andb].
    rewrite (IH (seen ++ [c])); rewrite <- app_assoc; [reflexivity|exact Hle].
Qed.

(* ===================================================================== *)
(** * refine_synthesis *)
(* ===================================================================== *)

Arguments create_initial_prompt : simpl never.
Arguments create_refine_prompt : simpl never.

Lemma string_append_assoc (a b c : string) :
  ((a ++ b) ++ c = a ++ (b ++ c))%string.
Proof.
  induction a as [|x a IH]; [reflexivity|].
  change (String x ((a ++ b) ++ c) = String x (a ++ (b ++ c)))%string.
  now rewrite IH.
Qed.

Lemma contains_fourth (a b c d e : string) :
  contains (a ++ b ++ c ++ d ++ e)%string d.
Proof.
  exists (a ++ b ++ c)%string, e. now rewrite !string_append_assoc.
Qed.

Lemma create_refine_prompt_contains q current_response new_chunks i n :
  contains (create_refine_prompt q current_response new_chunks i n)
           current_response.
Proof. unfold create_refine_prompt. apply contains_fourth. Qed.

Lemma chunks_per_batch_constructible cfg :
  constructible cfg ->
  chunks_per_batch cfg
  = inr (max_content_tokens cfg / average_chunk_tokens cfg).
Proof.
  unfold constructible, chunks_per_batch, floordiv. intros H.
  destruct (Z.eqb_spec (average_chunk_tokens cfg) 0); congruence.
Qed.

Lemma determine_batches_within py cfg chunks :
  Float64.leb_Z (sum_estimates py chunks) (max_content_tokens cfg) = true ->
  determine_batches py cfg chunks = [chunks].
Proof. unfold determine_batches. now intros ->. Qed.


(** No fragment: every interpreter's [sum] is the [int] [0]. *)
Lemma sum_estimates_nil py : sum_estimates py [] = Float64.zero.
Proof. now destruct py. Qed.

(** One fragment: every interpreter's [sum] is [0 + x]. *)
Lemma sum_estimates_single py c :
  sum_estimates py [c] = total_estimate [c].
Proof.
  destruct py; [reflexivity|].
  unfold sum_estimates, total_estimate. cbn [map py_sum fold_left].
  unfold cs_to_double. reflexivity.
Qed.


(** When the running sum over the list is within the budget, the planner
    returns the list as its one batch. *)
Lemma create_batches_within (cfg : RefineConfig) (chunks : list string) :
  chunks <> [] ->
  Float64.leb_Z (total_estimate chunks) (max_content_tokens cfg) = true ->
  create_batches cfg chunks = [chunks].
Proof.
  intros Hne Hle. unfold create_batches, batch_init.
  change Float64.zero with (total_estimate []).
  rewrite (batch_fold_within (max_content_tokens cfg) chunks [] Hle).
  unfold batch_finish. cbn [current_batch batches app].
  destruct chunks; [congruence|reflexivity].
Qed.

(** Whichever way Step 2 sums, a list whose running sum is within the
    budget is the one batch of the run. *)
Lemma determine_batches_running_within (py : Interpreter)
    (cfg : RefineConfig) (chunks : list string) :
  Float64.leb_Z (total_estimate chunks) (max_content_tokens cfg) = true ->
  determine_batches py cfg chunks = [chunks].
Proof.
  intros Hle. unfold determine_batches.
  destruct (Float64.leb_Z (sum_estimates py chunks) (max_content_tokens cfg))
    eqn:Hsum; [reflexivity|].
  destruct chunks as [|c chunks].
  - rewrite sum_estimates_nil in Hsum.
    change (total_estimate []) with Float64.zero in Hle. congruence.
  - apply create_batches_within; [discriminate|exact Hle].
Qed.


Section OrchestratorFacts.
Context {G : Type}.
Variable generate_content :
  G -> string -> Float64.float -> Z -> GenOutcome * G.
Variable now : nat -> Z.
Variable py : Interpreter.

Abbreviation run := (refine_synthesis generate_content now py).

(** A run whose Step 2 yields a single batch. *)
Lemma run_single_batch (cfg : RefineConfig) (q : string)
    (chunks : list string) (prioritize : bool) (w : @World G) :
  let chunks' :=
    if prioritize then prioritize_chunks chunks q else chunks in
  constructible cfg ->
  determine_batches py cfg chunks' = [chunks'] ->
  exists res w',
    run cfg q chunks prioritize w = (inr res, w')
    /\ prompts_sent w' = prompts_sent w ++ [create_initial_prompt q chunks' 1]
    /\ response res
       = call_text generate_content cfg (service w)
                   (create_initial_prompt q chunks' 1)
    /\ processing_strategy (metadata res) = "single_batch"
    /\ total_batches (metadata res) = 1%nat
    /\ total_chunks (metadata res) = length chunks'
    /\ exists t,
        processing_log res
        = [{| batch_number := 1; chunk_count := length chunks';
              processing_time := t; action := "initial_synthesis" |}].
Proof.
  intros chunks' Hc Hb.
  unfold refine_synthesis. fold chunks'. rewrite Hb.
  unfold bind, datetime_now, gemini_generate, lift. simpl.
  rewrite (chunks_per_batch_constructible cfg Hc). simpl.
  do 2 eexists. split; [reflexivity|]. simpl.
  repeat split; eauto.
Qed.

(** C6. Single-batch shortcut, on every interpreter: when the total
    estimate of the fragments (over the prioritized list when [prioritize]
    is set) is below [max_content_tokens], be it the running sum, from left
    to right, or the [sum] Step 2 computes on the interpreter at hand, the
    run sends exactly one prompt to the service, the initial prompt over
    all fragments; it returns a result whose strategy is [single_batch]
    and whose processing log is one [initial_synthesis] record. *)
Theorem single_batch_shortcut (cfg : RefineConfig) (q : string)
    (chunks : list string) (prioritize : bool) (w : @World G) :
  let chunks' :=
    if prioritize then prioritize_chunks chunks q else chunks in
  constructible cfg ->
  Float64.ltb_Z (total_estimate chunks') (max_content_tokens cfg) = true
  \/ Float64.ltb_Z (sum_estimates py chunks') (max_content_tokens cfg) = true ->
  exists res w',
    refine_synthesis generate_content now py cfg q chunks prioritize w
    = (inr res, w')
    /\ prompts_sent w' = prompts_sent w ++ [create_initial_prompt q chunks' 1]
    /\ processing_strategy (metadata res) = "single_batch"
    /\ total_batches (metadata res) = 1%nat
    /\ exists t,
        processing_log res
        = [{| batch_number := 1; chunk_count := length chunks';
              processing_time := t; action := "initial_synthesis" |}].
Proof.
  intros chunks' Hc Hlt.
  destruct (run_single_batch cfg q chunks prioritize w Hc)
    as (res & w' & Hrun & Hsent & _ & Hstrat & Hn & _ & Hlog).
  { destruct Hlt as [Hlt|Hlt].
    - apply determine_batches_running_within, Float64Facts.ltb_Z_leb, Hlt.
    - apply determine_batches_within, Float64Facts.ltb_Z_leb, Hlt. }
  exists res, w'. auto.
Qed.



(** ** Runs of three batches *)

Lemma run_three_batches (cfg : RefineConfig) (q : string)
    (chunks : list string) (prioritize : bool) (w : @World G)
    (b1 b2 b3 : list string) :
  let chunks' :=
    if prioritize then prioritize_chunks chunks q else chunks in
  determine_batches py cfg chunks' = [b1; b2; b3] ->
  let p1 := create_initial_prompt q b1 3 in
  let r1 := call_text generate_content cfg (service w) p1 in
  let g1 := call_next generate_content cfg (service w) p1 in
  let p2 := create_refine_prompt q r1 b2 2 3 in
  let r2 := call_text generate_content cfg g1 p2 in
  let g2 := call_next generate_content cfg g1 p2 in
  let p3 := create_refine_prompt q r2 b3 3 3 in
  let r3 := call_text generate_content cfg g2 p3 in
  let out := refine_synthesis generate_content now py cfg q chunks prioritize w in
  prompts_sent (snd out) = prompts_sent w ++ [p1; p2; p3]
  /\ (constructible cfg ->
      exists res t1 t2 t3,
        fst out = inr res
        /\ response res = r3
        /\ processing_strategy (metadata res) = "multi_batch"
        /\ total_batches (metadata res) = 3%nat
        /\ processing_log res
           = [{| batch_number := 1; chunk_count := length b1;
                 processing_time := t1; action := "initial_synthesis" |};
              {| batch_number := 2; chunk_count := length b2;
                 processing_time := t2; action := "refine_synthesis" |};
              {| batch_number := 3; chunk_count := length b3;
                 processing_time := t3; action := "refine_synthesis" |}]).
Proof.
  intros chunks' Hb p1 r1 g1 p2 r2 g2 p3 r3 out. subst out.
  unfold refine_synthesis. fold chunks'. rewrite Hb.
  unfold bind, datetime_now, gemini_generate, lift, ret, raise.
  cbn [refine_loop length service prompts_sent clock_reads fst snd].
  unfold bind, datetime_now, gemini_generate, ret.
  cbn [service prompts_sent clock_reads fst snd].
  fold p1 r1 g1 p2 r2 g2 p3 r3.
  split.
  - destruct (chunks_per_batch cfg); cbn [snd prompts_sent];
      rewrite <- !app_assoc; reflexivity.
  - intros Hc. rewrite (chunks_per_batch_constructible cfg Hc).
    cbn [fst]. do 4 eexists. split; [reflexivity|].
    cbn [response metadata processing_strategy total_batches processing_log].
    repeat split; reflexivity.
Qed.

(** C5. Multi-batch progression: when Step 2 yields exactly three batches,
    the run sends exactly three prompts, in batch order: the initial prompt
    over the first batch, then for the second and the third batch a refine
    prompt built from the query, the text the previous call returned and
    the new batch alone (no fragment of an earlier batch is passed to
    [create_refine_prompt]); the second prompt contains the first call's
    returned text verbatim and the third prompt the second call's. *)
Theorem multi_batch_progression (cfg : RefineConfig) (q : string)
    (chunks : list string) (prioritize : bool) (w : @World G)
    (b1 b2 b3 : list string) :
  let chunks' :=
    if prioritize then prioritize_chunks chunks q else chunks in
  determine_batches py cfg chunks' = [b1; b2; b3] ->
  let p1 := create_initial_prompt q b1 3 in
  let r1 := call_text generate_content cfg (service w) p1 in
  let g1 := call_next generate_content cfg (service w) p1 in
  let p2 := create_refine_prompt q r1 b2 2 3 in
  let r2 := call_text generate_content cfg g1 p2 in
  let out := refine_synthesis generate_content now py cfg q chunks prioritize w in
  let p3 := create_refine_prompt q r2 b3 3 3 in
  prompts_sent (snd out) = prompts_sent w ++ [p1; p2; p3]
  /\ contains p2 r1
  /\ contains p3 r2.
Proof.
  intros chunks' Hb p1 r1 g1 p2 r2 out p3.
  split; [|split].
  - exact (proj1 (run_three_batches cfg q chunks prioritize w b1 b2 b3 Hb)).
  - apply create_refine_prompt_contains.
  - apply create_refine_prompt_contains.
Qed.

Lemma text_or_error_text (t : string) :
  t <> "" -> text_or_error (Text t) = t.
Proof. destruct t; [congruence|reflexivity]. Qed.

(** C3 (amended). Failure isolation: in a run of three batches where the
    service answers the first and the third call with a text and raises on
    the second, the run does not raise; the second step's answer is the
    marked error string, which the third prompt carries as the current
    response; the result is the third call's text, not empty; the
    processing log has exactly three entries, and the entry of batch 2 is
    an ordinary [refine_synthesis] record. *)
Theorem failure_isolation (cfg : RefineConfig) (q : string)
    (chunks : list string) (prioritize : bool) (w : @World G)
    (b1 b2 b3 : list string) (t1 message t3 : string) :
  let chunks' :=
    if prioritize then prioritize_chunks chunks q else chunks in
  constructible cfg ->
  determine_batches py cfg chunks' = [b1; b2; b3] ->
  let p1 := create_initial_prompt q b1 3 in
  let g1 := call_next generate_content cfg (service w) p1 in
  let p2 := create_refine_prompt q t1 b2 2 3 in
  let g2 := call_next generate_content cfg g1 p2 in
  let marked := ("Error: Gemini API call failed - " ++ message)%string in
  let p3 := create_refine_prompt q marked b3 3 3 in
  t1 <> "" -> t3 <> "" ->
  call_outcome generate_content cfg (service w) p1 = Text t1 ->
  call_outcome generate_content cfg g1 p2 = Raised message ->
  call_outcome generate_content cfg g2 p3 = Text t3 ->
  exists res w' time1 time2 time3,
    refine_synthesis generate_content now py cfg q chunks prioritize w
    = (inr res, w')
    /\ prompts_sent w' = prompts_sent w ++ [p1; p2; p3]
    /\ contains p3 marked
    /\ response res = t3
    /\ response res <> ""
    /\ processing_log res
       = [{| batch_number := 1; chunk_count := length b1;
             processing_time := time1; action := "initial_synthesis" |};
          {| batch_number := 2; chunk_count := length b2;
             processing_time := time2; action := "refine_synthesis" |};
          {| batch_number := 3; chunk_count := length b3;
             processing_time := time3; action := "refine_synthesis" |}].
Proof.
  intros chunks' Hc Hb p1 g1 p2 g2 marked p3 Ht1 Ht3 H1 H2 H3.
  destruct (run_three_batches cfg q chunks prioritize w b1 b2 b3 Hb)
    as [Hsent Hres].
  destruct (Hres Hc) as (res & time1 & time2 & time3
                         & Hout & Hresp & _ & _ & Hlog).
  clear Hres. revert Hsent Hout Hresp Hlog.
  subst p3 marked g2 p2 g1 p1.
  unfold call_text. rewrite H1, (text_or_error_text t1 Ht1).
  rewrite H2. cbn [text_or_error].
  rewrite H3, (text_or_error_text t3 Ht3).
  destruct (refine_synthesis generate_content now py cfg q chunks prioritize w)
    as [r w'].
  cbn [fst snd]. intros Hsent -> Hresp Hlog.
  exists res, w', time1, time2, time3.
  split; [reflexivity|]. split; [exact Hsent|].
  split; [apply create_refine_prompt_contains|].
  split; [exact Hresp|]. split; [congruence|exact Hlog].
Qed.

End OrchestratorFacts.

(* ===================================================================== *)
(** * The strategy decision *)
(* ===================================================================== *)

Lemma batch_fold_open_nonempty max_content chunks st :
  chunks <> [] \/ current_batch st <> [] ->
  current_batch (fold_left (batch_step max_content) chunks st) <> [].
Proof.
  revert st. induction chunks as [|c chunks IH]; intros st H; simpl.
  - destruct H; congruence.
  - apply IH. right. unfold batch_step.
    destruct (_ && _); simpl; [congruence|].
    destruct (current_batch st); simpl; congruence.
Qed.




Section StrategyDecision.
Context {G : Type}.
Variable generate_content :
  G -> string -> Float64.float -> Z -> GenOutcome * G.
Variable now : nat -> Z.
Variable py : Interpreter.



End StrategyDecision.

(* ===================================================================== *)
(** * The properties on concrete runs *)
(* ===================================================================== *)

Lemma small_config_constructible : constructible small_config.
Proof. unfold constructible. simpl. lia. Qed.

Lemma default_config_constructible : constructible default_config.
Proof. unfold constructible. simpl. lia. Qed.

(** Three short fragments under the default budget: one call, one batch. *)
Lemma single_batch_shortcut_witness :
  exists res w',
    refine_synthesis gateway_ok ticking CPython_3_12 default_config
      "OSFI capital requirements"
      ["OSFI sets capital rules"; "buffers apply"; "ratios are minimums"]
      true fresh_world
    = (inr res, w')
    /\ length (prompts_sent w') = 1%nat
    /\ response res = "draft"
    /\ processing_strategy (metadata res) = "single_batch"
    /\ length (processing_log res) = 1%nat.
Proof.
  destruct (single_batch_shortcut gateway_ok ticking CPython_3_12
              default_config "OSFI capital requirements"
              ["OSFI sets capital rules"; "buffers apply";
               "ratios are minimums"] true fresh_world
              default_config_constructible)
    as (res & w' & Hrun & Hsent & Hstrat & Hn & t & Hlog).
  { right. vm_compute. reflexivity. }
  exists res, w'. split; [exact Hrun|].
  split; [rewrite Hsent; reflexivity|].
  split; [|split; [exact Hstrat|rewrite Hlog; reflexivity]].
  revert Hrun. vm_compute. intros Hrun. inversion Hrun. reflexivity.
Defined.


Lemma tight_config_constructible : constructible tight_config.
Proof. unfold constructible. simpl. lia. Qed.

(** C10, the claim as written fails: a configuration with
    [max_tokens_per_request] 4000 and the other fields at their defaults
    can be built, its budget is -1000, and on the empty list the run raises
    [IndexError] before any call to the service, on every interpreter. *)
Lemma empty_input_single_call_counterexample :
  constructible tight_config
  /\ max_content_tokens tight_config = -1000
  /\ Forall
       (fun py =>
          refine_synthesis gateway_ok ticking py tight_config "any query" []
            true fresh_world
          = (inl IndexError,
             {| service := 0%nat; prompts_sent := []; clock_reads := 1 |}))
       [CPython_3_11; CPython_3_12].
Proof.
  split; [exact tight_config_constructible|].
  split; [reflexivity|].
  repeat constructor.
Qed.

Lemma three_batch_chunks_planned :
  determine_batches CPython_3_12 small_config three_batch_chunks
  = [["a b"]; ["c d e f"]; ["g"; "h"]].
Proof. vm_compute. reflexivity. Qed.

(** Three batches: three prompts, each refine prompt carrying the text the
    call before it returned. *)
Lemma multi_batch_progression_witness :
  let out :=
    refine_synthesis gateway_ok ticking CPython_3_12 small_config "q" three_batch_chunks
      false fresh_world in
  prompts_sent (snd out)
  = [create_initial_prompt "q" ["a b"] 3;
     create_refine_prompt "q" "draft" ["c d e f"] 2 3;
     create_refine_prompt "q" "better" ["g"; "h"] 3 3]
  /\ contains (create_refine_prompt "q" "draft" ["c d e f"] 2 3) "draft"
  /\ contains (create_refine_prompt "q" "better" ["g"; "h"] 3 3) "better".
Proof.
  exact (multi_batch_progression gateway_ok ticking CPython_3_12 small_config "q"
           three_batch_chunks false fresh_world
           ["a b"] ["c d e f"] ["g"; "h"] three_batch_chunks_planned).
Defined.

(** The second call raises: the run goes on and returns the third text. *)
Lemma failure_isolation_witness :
  exists res w' time1 time2 time3,
    refine_synthesis gateway_failing_second ticking CPython_3_12 small_config "q"
      three_batch_chunks false fresh_world
    = (inr res, w')
    /\ prompts_sent w'
       = [] ++ [create_initial_prompt "q" ["a b"] 3;
                create_refine_prompt "q" "draft" ["c d e f"] 2 3;
                create_refine_prompt "q"
                  "Error: Gemini API call failed - 503 unavailable"
                  ["g"; "h"] 3 3]
    /\ contains
         (create_refine_prompt "q"
            "Error: Gemini API call failed - 503 unavailable" ["g"; "h"] 3 3)
         "Error: Gemini API call failed - 503 unavailable"
    /\ response res = "final"
    /\ response res <> ""
    /\ processing_log res
       = [{| batch_number := 1; chunk_count := 1;
             processing_time := time1; action := "initial_synthesis" |};
          {| batch_number := 2; chunk_count := 1;
             processing_time := time2; action := "refine_synthesis" |};
          {| batch_number := 3; chunk_count := 2;
             processing_time := time3; action := "refine_synthesis" |}].
Proof.
  apply (failure_isolation gateway_failing_second ticking CPython_3_12 small_config "q"
           three_batch_chunks false fresh_world
           ["a b"] ["c d e f"] ["g"; "h"] "draft" "503 unavailable" "final"
           small_config_constructible three_batch_chunks_planned);
    first [discriminate | reflexivity].
Defined.

(** C3, the claim as written fails: in the run where the second call
    raises, the log entry of batch 2 is the very entry of the run where
    every call succeeds; it carries no mark of the failure. *)
Lemma failure_isolation_counterexample :
  exists res_failed res_ok entry,
    fst (refine_synthesis gateway_failing_second ticking CPython_3_12 small_config "q"
           three_batch_chunks false fresh_world) = inr res_failed
    /\ fst (refine_synthesis gateway_ok ticking CPython_3_12 small_config "q"
              three_batch_chunks false fresh_world) = inr res_ok
    /\ processing_log res_failed !! 1%nat = Some entry
    /\ processing_log res_ok !! 1%nat = Some entry
    /\ entry = {| batch_number := 2; chunk_count := 1;
                  processing_time := 1; action := "refine_synthesis" |}.
Proof. do 3 eexists. vm_compute. repeat split; reflexivity. Qed.


(** With the compensated [sum], more than one fragment can come back from
    the planner as one batch: for fragments of 1, 23, 38 and 38 words and
    a budget of 133, [sum] gives 133.00000000000003 and Step 2 calls the
    planner, whose running sum is 133.0; the four fragments are one batch.
    Where [sum] adds from left to right, Step 2 takes the shortcut. *)
Example compensated_sum_one_batch_of_four :
  let chunks := [words 1; words 23; words 38; words 38] in
  Float64.leb_Z (sum_estimates CPython_3_12 chunks)
                (max_content_tokens budget_133_config) = false
  /\ determine_batches CPython_3_12 budget_133_config chunks = [chunks]
  /\ create_batches budget_133_config chunks = [chunks]
  /\ Float64.leb_Z (sum_estimates CPython_3_11 chunks)
                   (max_content_tokens budget_133_config) = true.
Proof. vm_compute. repeat split; reflexivity. Qed.


(* ===================================================================== *)
(** * estimate_tokens *)
(* ===================================================================== *)

Lemma leb_zero_nonneg (y : Float64.float) :
  Float64Spec.nonneg y = true -> Float64.leb Float64.zero y = true.
Proof. destruct y as [[]|[]| |[] m e]; try discriminate; reflexivity. Qed.

(** The estimate grows with the number of words. *)
Lemma estimate_words_mono (n1 n2 : nat) :
  (n1 <= n2)%nat ->
  Float64.leb
    (Float64.mul (Float64.of_Z (Z.of_nat n1)) Float64.lit_1_33)
    (Float64.mul (Float64.of_Z (Z.of_nat n2)) Float64.lit_1_33) = true.
Proof.
  intros Hle. destruct n1 as [|n1].
  - apply leb_zero_nonneg, Float64Facts.mul_lit_nonneg,
      Float64Facts.of_Z_nonneg. lia.
  - destruct n2 as [|n2]; [lia|].
    apply Rounding.normal_le_leb.
    unfold Float64.mul, Float64.lit_1_33, Float64.of_Z, Float64.prec,
      Float64.emax.
    apply Rounding.SFmul_mono;
      [unfold Float64Spec.two52, Float64Spec.two53; lia|lia|].
    cbn [Z.of_nat binary_normalize].
    apply Rounding.binary_round_mono. lia.
Qed.

(** C8. Token estimate monotonicity: when [a] is a prefix of [b] and [b]
    has strictly more whitespace-delimited words than [a], the estimate of
    [a] is at most the estimate of [b] (as binary64 numbers). *)
Theorem estimate_tokens_monotone (a b : string) :
  String.prefix a b = true ->
  (length (PyStr.split a) < length (PyStr.split b))%nat ->
  Float64.leb (estimate_tokens a) (estimate_tokens b) = true.
Proof.
  intros _ Hwords. unfold estimate_tokens.
  apply estimate_words_mono. lia.
Qed.

Lemma estimate_tokens_monotone_witness :
  Float64.leb (estimate_tokens "one two") (estimate_tokens "one two three")
  = true.
Proof.
  apply (estimate_tokens_monotone "one two" "one two three");
    [reflexivity|vm_compute; lia].
Defined.

(** The estimate is never negative, and the empty text has estimate 0. *)
Lemma estimate_tokens_empty : estimate_tokens "" = Float64.zero.
Proof. reflexivity. Qed.

(* ===================================================================== *)
(** * More on create_batches *)
(* ===================================================================== *)
Lemma adjacent_snoc {A} (P : A -> A -> Prop) (l : list A) (x y : A) :
  adjacent P (l ++ [x]) -> P x y -> adjacent P (l ++ [x; y]).
Proof.
  induction l as [|a l IH]; intros H Hxy.
  - simpl. auto.
  - destruct l as [|b l].
    + simpl in *. tauto.
    + destruct H as [Hab H]. split; [exact Hab|]. now apply IH.
Qed.

Lemma adjacent_last {A} (P : A -> A -> Prop) (l : list A) (x x' : A) :
  adjacent P (l ++ [x]) -> (forall a, P a x -> P a x') ->
  adjacent P (l ++ [x']).
Proof.
  induction l as [|a l IH]; intros H Himp.
  - exact I.
  - destruct l as [|b l].
    + destruct H as [H _]. split; auto. exact I.
    + destruct H as [Hab H]. split; [exact Hab|]. now apply IH.
Qed.

Section Greedy.
Variable max_content : Z.

Lemma greedy_inv_init : greedy_inv max_content batch_init.
Proof. split; simpl; auto. Qed.

Lemma greedy_inv_step st chunk :
  greedy_inv max_content st ->
  greedy_inv max_content (batch_step max_content st chunk).
Proof.
  intros [Htok Hempty Hadj]. unfold batch_step.
  destruct (Float64.gtb_Z
              (Float64.add (current_tokens st) (estimate_tokens chunk))
              max_content) eqn:Hgt; cbn [andb].
  - case_bool_decide as Hnil; cbn [negb batches current_batch current_tokens].
    + split; cbn [batches current_batch current_tokens].
      * now rewrite Htok, <- total_estimate_snoc.
      * intros H. destruct (current_batch st); discriminate.
      * rewrite (Hempty Hnil), Hnil. simpl. exact I.
    + split; cbn [batches current_batch current_tokens].
      * symmetry. apply total_estimate_single.
      * discriminate.
      * rewrite <- app_assoc. cbn [app].
        apply adjacent_snoc; [exact Hadj|].
        exists chunk, []. split; [reflexivity|].
        now rewrite total_estimate_snoc, <- Htok.
  - split; cbn [batches current_batch current_tokens].
    + now rewrite Htok, <- total_estimate_snoc.
    + intros H. destruct (current_batch st); discriminate.
    + apply (adjacent_last _ _ (current_batch st)); [exact Hadj|].
      intros a (c & rest & Hc & Hover). rewrite Hc.
      exists c, (rest ++ [chunk]). split; [reflexivity|exact Hover].
Qed.

Lemma greedy_inv_fold chunks st :
  greedy_inv max_content st ->
  greedy_inv max_content (fold_left (batch_step max_content) chunks st).
Proof.
  revert st. induction chunks as [|c chunks IH]; intros st H; simpl; auto.
  apply IH, greedy_inv_step, H.
Qed.

End Greedy.

(** X1. Greedy packing: a batch is closed only when the next fragment would
    take it over the budget. *)
Theorem create_batches_greedy (cfg : RefineConfig) (chunks : list string) :
  adjacent (overflows_with (max_content_tokens cfg)) (create_batches cfg chunks).
Proof.
  unfold create_batches.
  pose proof (greedy_inv_fold (max_content_tokens cfg) chunks batch_init
                (greedy_inv_init (max_content_tokens cfg))) as [_ Hempty Hadj].
  unfold batch_finish.
  destruct (current_batch _) eqn:E; [|exact Hadj].
  rewrite (Hempty eq_refl). exact I.
Qed.

Lemma create_batches_length (cfg : RefineConfig) (chunks : list string) :
  (length (create_batches cfg chunks) <= length chunks)%nat.
Proof.
  pose proof (create_batches_concat cfg chunks) as Hcat.
  assert (Hne : Forall (fun b : list string => b <> [])
                  (create_batches cfg chunks)).
  { unfold create_batches.
    apply batch_finish_nonempty, batch_fold_nonempty. constructor. }
  rewrite <- Hcat at 2. clear Hcat.
  induction Hne as [|b bs Hb Hbs IH]; simpl; [lia|].
  rewrite length_app. destruct b; [congruence|]. simpl. lia.
Qed.

Lemma determine_batches_length (py : Interpreter) (cfg : RefineConfig)
    (chunks : list string) :
  (length (determine_batches py cfg chunks) <= Nat.max 1 (length chunks))%nat.
Proof.
  unfold determine_batches.
  pose proof (create_batches_length cfg chunks).
  destruct (Float64.leb_Z _ _); cbn [length]; lia.
Qed.

(** X2. The planner returns no batch exactly for the empty list, and never
    more batches than fragments; Step 2 of a run, which may take the whole
    list as one batch, yields at most one batch per fragment, and at most
    one for the empty list. *)
Theorem create_batches_count (py : Interpreter) (cfg : RefineConfig)
    (chunks : list string) :
  (create_batches cfg chunks = [] <-> chunks = [])
  /\ (length (create_batches cfg chunks) <= length chunks)%nat
  /\ (length (determine_batches py cfg chunks) <= Nat.max 1 (length chunks))%nat.
Proof.
  pose proof (create_batches_concat cfg chunks) as Hcat.
  split; [split|split].
  - intros H. rewrite H in Hcat. now rewrite <- Hcat.
  - intros ->. reflexivity.
  - apply create_batches_length.
  - apply determine_batches_length.
Qed.

(** X3. The planner works on line: a fragment added at the end of a list that
    is not empty leaves the closed batches as they are; it joins the last
    batch when the sum with it stays within the budget, and otherwise
    makes a batch of its own after it. *)
Theorem create_batches_append (cfg : RefineConfig) (chunks : list string)
    (c : string) :
  chunks <> [] ->
  exists closed last,
    create_batches cfg chunks = closed ++ [last]
    /\ create_batches cfg (chunks ++ [c])
       = if Float64.gtb_Z (total_estimate (last ++ [c]))
                          (max_content_tokens cfg)
         then closed ++ [last; [c]]
         else closed ++ [last ++ [c]].
Proof.
  intros Hne. unfold create_batches. rewrite fold_left_app.
  set (st := fold_left (batch_step (max_content_tokens cfg)) chunks batch_init).
  pose proof (batch_fold_open_nonempty (max_content_tokens cfg) chunks
                batch_init (or_introl Hne)) as Hopen.
  pose proof (greedy_inv_fold (max_content_tokens cfg) chunks batch_init
                (greedy_inv_init (max_content_tokens cfg))) as [Htok _ _].
  fold st in Hopen, Htok.
  exists (batches st), (current_batch st). split.
  - unfold batch_finish. destruct (current_batch st); [congruence|reflexivity].
  - cbn [fold_left]. unfold batch_step.
    rewrite total_estimate_snoc, <- Htok.
    destruct (Float64.gtb_Z
                (Float64.add (current_tokens st) (estimate_tokens c))
                (max_content_tokens cfg)); cbn [andb].
    + case_bool_decide as Hnil; [congruence|]. cbn [negb].
      unfold batch_finish. cbn [current_batch batches].
      now rewrite <- app_assoc.
    + unfold batch_finish. cbn [current_batch batches].
      destruct (current_batch st); [congruence|reflexivity].
Qed.

Lemma create_batches_append_witness :
  exists closed last,
    create_batches small_config three_batch_chunks = closed ++ [last]
    /\ create_batches small_config (three_batch_chunks ++ ["i j k"])
       = if Float64.gtb_Z (total_estimate (last ++ ["i j k"]))
                          (max_content_tokens small_config)
         then closed ++ [last; ["i j k"]]
         else closed ++ [last ++ ["i j k"]].
Proof.
  apply (create_batches_append small_config three_batch_chunks "i j k").
  discriminate.
Defined.

(* ===================================================================== *)
(** * More on prioritize_chunks *)
(* ===================================================================== *)

Lemma sorted_reverse_sorted_id {A} (key : A -> nat) (l : list A) :
  StronglySorted (desc key) l -> sorted_reverse key l = l.
Proof.
  induction 1 as [|x l Hl IH Hx]; simpl; [reflexivity|].
  rewrite IH. destruct Hx as [|y l Hy _]; simpl; [reflexivity|].
  unfold desc in Hy. destruct (Nat.ltb_spec (key x) (key y)); [lia|reflexivity].
Qed.

(** X5. Prioritizing twice is prioritizing once. *)
Theorem prioritize_chunks_idempotent (chunks : list string) (q : string) :
  prioritize_chunks (prioritize_chunks chunks q) q = prioritize_chunks chunks q.
Proof.
  rewrite !prioritize_chunks_sorted_reverse.
  apply sorted_reverse_sorted_id, sorted_reverse_sorted.
Qed.

(** Lowering letters and cutting into words commute. *)
Lemma isspace_lower_char (c : ascii) :
  PyStr.isspace (PyStr.lower_char c) = PyStr.isspace c.
Proof. destruct c as [[] [] [] [] [] [] [] []]; reflexivity. Qed.

Lemma lower_char_idempotent (c : ascii) :
  PyStr.lower_char (PyStr.lower_char c) = PyStr.lower_char c.
Proof. destruct c as [[] [] [] [] [] [] [] []]; reflexivity. Qed.

Lemma lower_idempotent (s : string) :
  PyStr.lower (PyStr.lower s) = PyStr.lower s.
Proof.
  induction s as [|c s IH]; simpl; [reflexivity|].
  now rewrite lower_char_idempotent, IH.
Qed.

Lemma lower_string_of_list_ascii (l : list ascii) :
  PyStr.lower (string_of_list_ascii l)
  = string_of_list_ascii (map PyStr.lower_char l).
Proof. induction l as [|c l IH]; simpl; [reflexivity|now rewrite IH]. Qed.

Lemma split_aux_lower (s : string) (cur : list ascii) :
  PyStr.split_aux (PyStr.lower s) (map PyStr.lower_char cur)
  = map PyStr.lower (PyStr.split_aux s cur).
Proof.
  revert cur. induction s as [|c s IH]; intros cur; simpl.
  - destruct cur as [|a cur]; simpl; [reflexivity|].
    now rewrite lower_string_of_list_ascii, map_app, map_rev.
  - rewrite isspace_lower_char. destruct (PyStr.isspace c).
    + destruct cur as [|a cur]; simpl.
      * apply (IH []).
      * rewrite lower_string_of_list_ascii, map_app, map_rev. simpl.
        f_equal. apply (IH []).
    + apply (IH (c :: cur)).
Qed.

Lemma split_lower (s : string) :
  PyStr.split (PyStr.lower s) = map PyStr.lower (PyStr.split s).
Proof. apply (split_aux_lower s []). Qed.

Lemma word_set_lower (s : string) : word_set (PyStr.lower s) = word_set s.
Proof. unfold word_set. now rewrite lower_idempotent. Qed.

Lemma sorted_reverse_map {A B} (f : A -> B) (key : B -> nat) (l : list A) :
  sorted_reverse key (map f l) = map f (sorted_reverse (fun a => key (f a)) l).
Proof.
  induction l as [|x l IH]; simpl; [reflexivity|]. rewrite IH.
  generalize (sorted_reverse (fun a => key (f a)) l). intros l'.
  induction l' as [|y l' IH']; simpl; [reflexivity|].
  destruct (key (f x) <? key (f y))%nat; simpl; [now rewrite IH'|reflexivity].
Qed.

Lemma sorted_reverse_ext {A} (key key' : A -> nat) (l : list A) :
  (forall a, key a = key' a) -> sorted_reverse key l = sorted_reverse key' l.
Proof.
  intros H. induction l as [|x l IH]; simpl; [reflexivity|]. rewrite IH.
  generalize (sorted_reverse key' l). intros l'.
  induction l' as [|y l' IH']; simpl; [reflexivity|].
  now rewrite !H, IH'.
Qed.

(** X6. Prioritization is blind to letter case: lowering the query changes
    nothing, and lowering the fragments gives the lowered fragments in the
    same order. *)
Theorem prioritize_chunks_case_insensitive (chunks : list string) (q : string) :
  prioritize_chunks chunks (PyStr.lower q) = prioritize_chunks chunks q
  /\ prioritize_chunks (map PyStr.lower chunks) q
     = map PyStr.lower (prioritize_chunks chunks q).
Proof.
  rewrite !prioritize_chunks_sorted_reverse, word_set_lower.
  split; [reflexivity|].
  rewrite sorted_reverse_map. f_equal.
  apply sorted_reverse_ext. intros c.
  unfold relevance_score. now rewrite word_set_lower.
Qed.

Lemma split_aux_open_word (s : string) (cur : list ascii) :
  cur <> [] -> PyStr.split_aux s cur <> [].
Proof.
  revert cur. induction s as [|c s IH]; intros cur Hcur; simpl.
  - destruct cur; [congruence|discriminate].
  - destruct (PyStr.isspace c).
    + destruct cur; [congruence|discriminate].
    + apply IH. discriminate.
Qed.

(** A text has no word exactly when it is made of whitespace only. *)
Lemma split_nil_iff (s : string) :
  PyStr.split s = []
  <-> forallb PyStr.isspace (list_ascii_of_string s) = true.
Proof.
  unfold PyStr.split. induction s as [|c s IH]; simpl; [tauto|].
  destruct (PyStr.isspace c) eqn:E; simpl; [exact IH|].
  split; [|discriminate]. intros H.
  now apply split_aux_open_word in H.
Qed.

(** X7. A query without any word (empty, or whitespace only) leaves the
    fragments in their order. *)
Theorem prioritize_chunks_blank_query (chunks : list string) (q : string) :
  forallb PyStr.isspace (list_ascii_of_string q) = true ->
  prioritize_chunks chunks q = chunks.
Proof.
  intros Hq. rewrite prioritize_chunks_sorted_reverse.
  apply (sorted_reverse_all_equal _ 0%nat).
  apply Forall_forall. intros c _.
  unfold relevance_score, word_set at 1.
  rewrite split_lower. apply split_nil_iff in Hq. rewrite Hq. simpl.
  rewrite intersection_empty_l_L. apply size_empty.
Qed.

Lemma prioritize_chunks_blank_query_witness :
  prioritize_chunks ["beta"; "alpha"; "gamma"] "  " = ["beta"; "alpha"; "gamma"].
Proof.
  apply (prioritize_chunks_blank_query ["beta"; "alpha"; "gamma"] "  ").
  reflexivity.
Defined.

(* ===================================================================== *)
(** * More on estimate_tokens *)
(* ===================================================================== *)

Lemma normal_le_not_zero (x y : Float64.float) :
  Float64Spec.normal_le x y -> x <> Float64.zero.
Proof. destruct x as [| | |[] m e]; simpl; try contradiction; discriminate. Qed.

(** X8. The estimate is never a NaN, negative or a negative zero, and it is
    zero exactly for a text without any word. *)
Theorem estimate_tokens_zero_iff (text : string) :
  Float64Spec.nonneg (estimate_tokens text) = true
  /\ (estimate_tokens text = Float64.zero
      <-> forallb PyStr.isspace (list_ascii_of_string text) = true).
Proof.
  split; [apply estimate_tokens_nonneg|].
  rewrite <- split_nil_iff. unfold estimate_tokens.
  destruct (PyStr.split text) as [|w ws]; [split; reflexivity|].
  split; [|discriminate]. intros H. exfalso. revert H.
  cbn [length Z.of_nat].
  unfold Float64.mul, Float64.lit_1_33, Float64.of_Z, Float64.prec,
    Float64.emax. cbn [binary_normalize].
  apply (normal_le_not_zero _
           (SFmul 53 1024
              (binary_round 53 1024 false
                 (Pos.of_succ_nat (length ws)) 0)
              (S754_finite false 5989787504402760 (-52)))).
  apply Rounding.SFmul_mono;
    [unfold Float64Spec.two52, Float64Spec.two53; lia|lia|].
  apply Rounding.binary_round_mono. lia.
Qed.

(* ===================================================================== *)
(** * More on refine_synthesis *)
(* ===================================================================== *)

Lemma string_append_nil_r (s : string) : (s ++ "")%string = s.
Proof.
  induction s as [|c s IH]; [reflexivity|].
  change (String c (s ++ "") = String c s)%string. now rewrite IH.
Qed.

Lemma contains_refl (s : string) : contains s s.
Proof. exists "", "". now rewrite string_append_nil_r. Qed.

Lemma contains_app_l (a s x : string) :
  contains s x -> contains (a ++ s)%string x.
Proof.
  intros (pre & post & ->). exists (a ++ pre)%string, post.
  now rewrite string_append_assoc.
Qed.

Lemma contains_app_r (s b x : string) :
  contains s x -> contains (s ++ b)%string x.
Proof.
  intros (pre & post & ->). exists pre, (post ++ b)%string.
  now rewrite !string_append_assoc.
Qed.

(** Every part of a join is in the join. *)
Lemma join_contains (sep : string) (parts : list string) (x : string) :
  In x parts -> contains (PyStr.join sep parts) x.
Proof.
  unfold PyStr.join. induction parts as [|p parts IH]; [contradiction|].
  intros [->|Hin].
  - destruct parts as [|p' parts]; [apply contains_refl|].
    change (contains (x ++ sep ++ String.concat sep (p' :: parts))%string x).
    apply contains_app_r, contains_refl.
  - destruct parts as [|p' parts]; [contradiction|].
    change (contains (p ++ sep ++ String.concat sep (p' :: parts))%string x).
    apply contains_app_l, contains_app_l, IH, Hin.
Qed.

Lemma create_initial_prompt_contains (q : string) (chunks : list string)
    (n : nat) :
  contains (create_initial_prompt q chunks n) q
  /\ forall c, In c chunks -> contains (create_initial_prompt q chunks n) c.
Proof.
  unfold create_initial_prompt. split.
  - apply contains_app_l, contains_app_r, contains_refl.
  - intros c Hc. do 5 apply contains_app_l.
    apply contains_app_r, join_contains, Hc.
Qed.

Lemma create_refine_prompt_carries (q cur : string) (chunks : list string)
    (i n : nat) :
  contains (create_refine_prompt q cur chunks i n) q
  /\ forall c, In c chunks -> contains (create_refine_prompt q cur chunks i n) c.
Proof.
  unfold create_refine_prompt. split.
  - apply contains_app_l, contains_app_r, contains_refl.
  - intros c Hc. do 9 apply contains_app_l.
    apply contains_app_r, join_contains, Hc.
Qed.

Lemma text_or_error_nonempty (out : GenOutcome) : text_or_error out <> "".
Proof. destruct out as [[|c t]|e]; discriminate. Qed.

Section RunFacts.
Context {G : Type}.
Variable generate_content :
  G -> string -> Float64.float -> Z -> GenOutcome * G.
Variable now : nat -> Z.
Variable py : Interpreter.

(** The refine loop, batch by batch. *)
Lemma refine_loop_run (rest : list (list string)) :
  forall cfg q n i cur log (w : @World G),
  exists resp log' ps w',
    refine_loop generate_content now cfg q n i rest cur log w
    = (inr (resp, log ++ log'), w')
    /\ prompts_sent w' = prompts_sent w ++ ps
    /\ clock_reads w' = (clock_reads w + 2 * length rest)%nat
    /\ map batch_number log' = seq i (length rest)
    /\ map chunk_count log' = map length rest
    /\ Forall (fun r => action r = "refine_synthesis") log'
    /\ Forall (timed_between now (clock_reads w) (clock_reads w')) log'
    /\ Forall2 (carries q) ps rest
    /\ (cur <> "" -> resp <> "").
Proof.
  induction rest as [|batch rest IH]; intros cfg q n i cur log w.
  - exists cur, [], [], w. cbn [refine_loop ret length].
    rewrite !app_nil_r, Nat.add_0_r. repeat split; auto.
  - cbn [refine_loop]. unfold bind, datetime_now, gemini_generate.
    cbn [service prompts_sent clock_reads].
    match goal with
    | |- context [refine_loop _ _ _ _ _ _ _ ?c ?l ?w0] =>
        destruct (IH cfg q n (S i) c l w0)
          as (resp & log' & ps & w' & Hrun & Hsent & Hclock & Hnum & Hcount
              & Hact & Htime & Hcarry & Hresp)
    end.
    rewrite Hrun. cbn [prompts_sent clock_reads] in Hsent, Hclock, Htime.
    eexists resp, (_ :: log'), (_ :: ps), w'.
    rewrite <- app_assoc. split; [reflexivity|].
    split; [rewrite Hsent, <- app_assoc; reflexivity|].
    split; [rewrite Hclock; cbn [length]; lia|].
    cbn [map length seq batch_number chunk_count].
    split; [now rewrite Hnum|]. split; [now rewrite Hcount|].
    split; [constructor; auto|].
    split; [|split].
    + constructor.
      * exists (clock_reads w). cbn [processing_time].
        split; [lia|]. split; [rewrite Hclock; lia|reflexivity].
      * eapply Forall_impl; [exact Htime|].
        intros r (j & Hlo & Hhi & Hr). exists j. repeat split; auto; lia.
    + constructor; [apply create_refine_prompt_carries|exact Hcarry].
    + intros _. apply Hresp. apply text_or_error_nonempty.
Qed.

(** A run over batches [first :: rest], step by step. *)
Lemma run_over_batches (cfg : RefineConfig) (q : string)
    (chunks : list string) (prioritize : bool) (w : @World G)
    (first : list string) (rest : list (list string)) :
  let chunks' :=
    if prioritize then prioritize_chunks chunks q else chunks in
  let n := S (length rest) in
  let c := clock_reads w in
  determine_batches py cfg chunks' = first :: rest ->
  exists resp log ps w',
    refine_synthesis generate_content now py cfg q chunks prioritize w
    = (match chunks_per_batch cfg with
       | inl e => inl e
       | inr limit =>
           inr {| response := resp;
                  metadata :=
                    {| md_user_query := q;
                       total_chunks := length chunks';
                       total_batches := n;
                       total_tokens_estimated := sum_estimates py chunks';
                       processing_strategy :=
                         if (n =? 1)%nat then "single_batch" else "multi_batch";
                       prioritized := prioritize;
                       total_processing_time := now (c + 2 * n)%nat - now c |};
                  processing_log := log;
                  config :=
                    {| cs_model_name := model_name cfg;
                       chunks_per_batch_limit := limit;
                       cs_max_content_tokens := max_content_tokens cfg |} |}
       end, w')
    /\ prompts_sent w' = prompts_sent w ++ ps
    /\ clock_reads w' = (c + 2 * n + 1)%nat
    /\ map batch_number log = seq 1 n
    /\ map chunk_count log = map length (first :: rest)
    /\ map action log
       = "initial_synthesis" :: repeat "refine_synthesis" (length rest)
    /\ Forall (timed_between now c (c + 2 * n)) log
    /\ Forall2 (carries q) ps (first :: rest)
    /\ resp <> "".
Proof.
  intros chunks' n c Hb.
  unfold refine_synthesis. fold chunks'. rewrite Hb.
  unfold bind at 1 2 3. unfold datetime_now at 1 2, gemini_generate at 1.
  cbn [service prompts_sent clock_reads length].
  unfold bind at 1.
  match goal with
  | |- context [refine_loop _ _ ?cf ?q0 ?n0 ?i ?r ?cur ?l ?w0] =>
      destruct (refine_loop_run r cf q0 n0 i cur l w0)
        as (resp & log' & ps & w' & Hrun & Hsent & Hclock & Hnum & Hcount
            & Hact & Htime & Hcarry & Hresp)
  end.
  rewrite Hrun. cbn [prompts_sent clock_reads] in Hsent, Hclock, Htime.
  unfold bind, datetime_now, lift, ret, raise. fold c.
  eexists resp, (_ :: log'), (_ :: ps), _.
  split.
  { cbn [app]. rewrite Hclock. fold c.
    replace (S (S c) + 2 * length rest)%nat with (c + 2 * n)%nat
      by (unfold n; lia).
    destruct (chunks_per_batch cfg); reflexivity. }
  cbn [prompts_sent clock_reads map batch_number chunk_count action].
  split; [rewrite Hsent, <- app_assoc; reflexivity|].
  split; [lia|].
  split; [unfold n; cbn [seq]; now rewrite Hnum|].
  split; [now rewrite Hcount|].
  split.
  { f_equal. clear -Hact Hcount.
    assert (Hlen : length log' = length rest).
    { rewrite <- (length_map chunk_count), Hcount. apply length_map. }
    rewrite <- Hlen. clear Hlen Hcount.
    induction Hact as [|r l Hr _ IH]; simpl; [reflexivity|].
    now rewrite Hr, IH. }
  split; [|split].
  - constructor.
    + exists c. cbn [processing_time]. unfold n. repeat split; lia.
    + eapply Forall_impl; [exact Htime|].
      intros r (j & Hlo & Hhi & Hr). exists j.
      rewrite Hclock in Hhi. unfold n. repeat split; auto; lia.
  - constructor; [apply create_initial_prompt_contains|exact Hcarry].
  - apply Hresp, text_or_error_nonempty.
Qed.

End RunFacts.

(** ** Every run, whatever its outcome *)

Lemma determine_batches_concat (py : Interpreter) (cfg : RefineConfig)
    (l : list string) :
  concat (determine_batches py cfg l) = l.
Proof.
  unfold determine_batches.
  destruct (Float64.leb_Z _ _); [apply app_nil_r|apply create_batches_concat].
Qed.

Lemma determine_batches_nil_iff (py : Interpreter) (cfg : RefineConfig)
    (l : list string) :
  determine_batches py cfg l = [] <-> l = [] /\ max_content_tokens cfg < 0.
Proof.
  split.
  - intros H. pose proof (determine_batches_concat py cfg l) as Hc.
    rewrite H in Hc. cbn in Hc. subst l.
    split; [reflexivity|].
    unfold determine_batches, Float64.leb_Z in H.
    rewrite sum_estimates_nil in H.
    change (Float64.compare_Z Float64.zero (max_content_tokens cfg))
      with (Some (0 ?= max_content_tokens cfg)) in H.
    destruct (Z.compare_spec 0 (max_content_tokens cfg));
      try discriminate; lia.
  - intros [-> Hneg]. unfold determine_batches, Float64.leb_Z.
    rewrite sum_estimates_nil.
    change (Float64.compare_Z Float64.zero (max_content_tokens cfg))
      with (Some (0 ?= max_content_tokens cfg)).
    destruct (Z.compare_spec 0 (max_content_tokens cfg));
      try lia; reflexivity.
Qed.

Lemma prioritized_perm (chunks : list string) (q : string) (prioritize : bool) :
  (if prioritize then prioritize_chunks chunks q else chunks) ≡ₚ chunks.
Proof.
  destruct prioritize; [|reflexivity].
  rewrite prioritize_chunks_sorted_reverse. apply sorted_reverse_perm.
Qed.

Lemma prioritized_nil_iff (chunks : list string) (q : string)
    (prioritize : bool) :
  (if prioritize then prioritize_chunks chunks q else chunks) = []
  <-> chunks = [].
Proof.
  pose proof (Permutation_length (prioritized_perm chunks q prioritize)) as Hp.
  split; intros H.
  - rewrite H in Hp. destruct chunks; [reflexivity|discriminate].
  - subst chunks. now destruct prioritize.
Qed.

Lemma Forall2_carries_concat (q : string) (ps : list string)
    (bs : list (list string)) (c : string) :
  Forall2 (carries q) ps bs -> In c (concat bs) ->
  Exists (fun p => contains p c) ps.
Proof.
  induction 1 as [|p b ps bs [_ Hp] _ IH]; cbn; [tauto|].
  rewrite in_app_iff. intros [Hc|Hc].
  - apply Exists_cons_hd, Hp, Hc.
  - apply Exists_cons_tl, IH, Hc.
Qed.

Section RunProperties.

Context {G : Type}.
Variable generate_content :
  G -> string -> Float64.float -> Z -> GenOutcome * G.
Variable now : nat -> Z.
Variable py : Interpreter.

Lemma run_empty_over (cfg : RefineConfig) (q : string)
    (chunks : list string) (prioritize : bool) (w : @World G) :
  determine_batches py cfg
    (if prioritize then prioritize_chunks chunks q else chunks) = [] ->
  refine_synthesis generate_content now py cfg q chunks prioritize w
  = (inl IndexError,
     {| service := service w; prompts_sent := prompts_sent w;
        clock_reads := S (clock_reads w) |}).
Proof.
  intros Hb. unfold refine_synthesis. rewrite Hb. reflexivity.
Qed.

(** X9. How a run ends.  It raises [IndexError] exactly when the fragment list
    is empty and the budget negative; otherwise it raises
    [ZeroDivisionError] exactly when [average_chunk_tokens] is zero, and
    returns a result exactly when it is not. *)
Theorem refine_synthesis_outcome (cfg : RefineConfig) (q : string)
    (chunks : list string) (prioritize : bool) (w : @World G) :
  let out := refine_synthesis generate_content now py cfg q chunks prioritize w in
  let empty_over := chunks = [] /\ max_content_tokens cfg < 0 in
  (fst out = inl IndexError <-> empty_over)
  /\ (fst out = inl ZeroDivisionError
      <-> ~ empty_over /\ average_chunk_tokens cfg = 0)
  /\ ((exists res, fst out = inr res)
      <-> ~ empty_over /\ average_chunk_tokens cfg <> 0).
Proof.
  intros out empty_over.
  set (chunks' := if prioritize then prioritize_chunks chunks q else chunks).
  assert (Hnil : determine_batches py cfg chunks' = [] <-> empty_over).
  { unfold empty_over. rewrite determine_batches_nil_iff.
    unfold chunks'. now rewrite prioritized_nil_iff. }
  destruct (determine_batches py cfg chunks') as [|first rest] eqn:Hb.
  - assert (He : empty_over) by now apply Hnil.
    unfold out. rewrite (run_empty_over cfg q chunks prioritize w Hb).
    cbn [fst]. split; [tauto|]. split.
    + split; [discriminate|tauto].
    + split; [intros [res ?]; discriminate|tauto].
  - assert (He : ~ empty_over) by (intros He; apply Hnil in He; discriminate).
    destruct (run_over_batches generate_content now py cfg q chunks prioritize w
                first rest Hb)
      as (resp & log & ps & w' & Hrun & _).
    unfold out. rewrite Hrun. cbn [fst]. clear Hrun.
    unfold chunks_per_batch, floordiv.
    destruct (Z.eqb_spec (average_chunk_tokens cfg) 0) as [Hz|Hz].
    + split; [split; [discriminate|tauto]|].
      split; [tauto|].
      split; [intros [res ?]; discriminate|tauto].
    + split; [split; [discriminate|tauto]|].
      split; [split; [discriminate|tauto]|].
      split; [tauto|]. intros _. eexists. reflexivity.
Qed.

(** X10. What a run sends, whether it returns or raises: one prompt per batch
    of Step 2, in batch order, appended to what had been sent before; each
    prompt holds the query and every fragment of its batch, so every
    fragment of the input reaches the service in some prompt. *)
Theorem refine_synthesis_sends_everything (cfg : RefineConfig) (q : string)
    (chunks : list string) (prioritize : bool) (w : @World G) :
  let chunks' :=
    if prioritize then prioritize_chunks chunks q else chunks in
  let out := refine_synthesis generate_content now py cfg q chunks prioritize w in
  exists ps,
    prompts_sent (snd out) = prompts_sent w ++ ps
    /\ Forall2 (carries q) ps (determine_batches py cfg chunks')
    /\ Forall (fun c => Exists (fun p => contains p c) ps) chunks.
Proof.
  intros chunks' out.
  assert (Hall : forall ps,
             Forall2 (carries q) ps (determine_batches py cfg chunks') ->
             Forall (fun c => Exists (fun p => contains p c) ps) chunks).
  { intros ps Hps. apply List.Forall_forall. intros c Hc.
    apply (Forall2_carries_concat q ps _ c Hps).
    rewrite determine_batches_concat.
    apply (Permutation_in c
             (Permutation_sym (prioritized_perm chunks q prioritize))), Hc. }
  destruct (determine_batches py cfg chunks') as [|first rest] eqn:Hb.
  - exists []. unfold out.
    rewrite (run_empty_over cfg q chunks prioritize w Hb). cbn [snd prompts_sent].
    split; [now rewrite app_nil_r|]. split; [constructor|].
    apply Hall. constructor.
  - destruct (run_over_batches generate_content now py cfg q chunks prioritize w
                first rest Hb)
      as (resp & log & ps & w' & Hrun & Hsent & _ & _ & _ & _ & _ & Hcarry & _).
    exists ps. unfold out. rewrite Hrun. cbn [snd].
    split; [exact Hsent|]. split; [exact Hcarry|]. apply Hall, Hcarry.
Qed.

(** X11. The record a run returns is consistent: the log has one entry per
    batch, numbered from 1, the first an [initial_synthesis] and the others
    [refine_synthesis]; the chunk counts of the entries add up to
    [total_chunks], which is the number of fragments passed in; the
    strategy is [single_batch] exactly when there is one entry; the
    response is not the empty string. *)
Theorem refine_synthesis_result_consistent (cfg : RefineConfig) (q : string)
    (chunks : list string) (prioritize : bool) (w : @World G)
    (res : SynthesisResult) :
  fst (refine_synthesis generate_content now py cfg q chunks prioritize w)
  = inr res ->
  let n := total_batches (metadata res) in
  (1 <= n)%nat
  /\ map batch_number (processing_log res) = seq 1 n
  /\ map action (processing_log res)
     = "initial_synthesis" :: repeat "refine_synthesis" (n - 1)
  /\ sum_list (map chunk_count (processing_log res))
     = total_chunks (metadata res)
  /\ total_chunks (metadata res) = length chunks
  /\ (processing_strategy (metadata res) = "single_batch" <-> n = 1%nat)
  /\ (processing_strategy (metadata res) = "multi_batch" <-> (1 < n)%nat)
  /\ response res <> "".
Proof.
  set (chunks' := if prioritize then prioritize_chunks chunks q else chunks).
  destruct (determine_batches py cfg chunks') as [|first rest] eqn:Hb.
  - rewrite (run_empty_over cfg q chunks prioritize w Hb). discriminate.
  - destruct (run_over_batches generate_content now py cfg q chunks prioritize w
                first rest Hb)
      as (resp & log & ps & w' & Hrun & _ & _ & Hnum & Hcount & Hact & _ & _
          & Hresp).
    rewrite Hrun. cbn [fst]. clear Hrun.
    destruct (chunks_per_batch cfg) as [e|limit]; [discriminate|].
    intros Hres. injection Hres as <-.
    cbn [metadata total_batches processing_log total_chunks
         processing_strategy response].
    split; [lia|]. split; [exact Hnum|].
    split; [rewrite Hact; do 2 f_equal; lia|].
    split.
    { rewrite Hcount. fold chunks'.
      rewrite <- (determine_batches_concat py cfg chunks'), Hb.
      generalize (first :: rest). clear.
      induction l as [|b l IH]; [reflexivity|].
      cbn [map concat]. rewrite length_app, <- IH. reflexivity. }
    split; [apply Permutation_length, prioritized_perm|].
    split; [|split; [|exact Hresp]].
    + destruct rest; cbn; split; try reflexivity; try discriminate; lia.
    + destruct rest; cbn; split; try reflexivity; try discriminate; lia.
Qed.

(** X12. Under a clock that never goes back, every step time of a returned
    record is between zero and the total processing time. *)
Theorem refine_synthesis_times (cfg : RefineConfig) (q : string)
    (chunks : list string) (prioritize : bool) (w : @World G)
    (res : SynthesisResult) :
  (forall k, now k <= now (S k)) ->
  fst (refine_synthesis generate_content now py cfg q chunks prioritize w)
  = inr res ->
  Forall (fun r => 0 <= processing_time r
                   /\ processing_time r <= total_processing_time (metadata res))
         (processing_log res).
Proof.
  intros Hmono.
  assert (Hle : forall a b, (a <= b)%nat -> now a <= now b).
  { intros a b Hab. induction Hab as [|b _ IH]; [lia|].
    specialize (Hmono b). lia. }
  set (chunks' := if prioritize then prioritize_chunks chunks q else chunks).
  destruct (determine_batches py cfg chunks') as [|first rest] eqn:Hb.
  - rewrite (run_empty_over cfg q chunks prioritize w Hb). discriminate.
  - destruct (run_over_batches generate_content now py cfg q chunks prioritize w
                first rest Hb)
      as (resp & log & ps & w' & Hrun & _ & _ & _ & _ & _ & Htime & _).
    rewrite Hrun. cbn [fst]. clear Hrun.
    destruct (chunks_per_batch cfg) as [e|limit]; [discriminate|].
    intros Hres. injection Hres as <-.
    cbn [metadata total_processing_time processing_log].
    eapply Forall_impl; [exact Htime|].
    intros r (j & Hlo & Hhi & ->).
    pose proof (Hmono j).
    pose proof (Hle (clock_reads w) j Hlo).
    pose proof (Hle (S j) (clock_reads w + 2 * S (length rest))%nat
                  ltac:(lia)).
    match goal with
    | |- context [now ?t - now (clock_reads w)] =>
        replace t with (clock_reads w + 2 * S (length rest))%nat by lia
    end.
    lia.
Qed.

End RunProperties.

(** Three batches under the budget of three tokens. *)
Lemma refine_synthesis_result_consistent_witness :
  exists res,
    fst (refine_synthesis gateway_ok ticking CPython_3_12 small_config "q"
           three_batch_chunks true fresh_world) = inr res
    /\ (let n := total_batches (metadata res) in
        (1 <= n)%nat
        /\ map batch_number (processing_log res) = seq 1 n
        /\ map action (processing_log res)
           = "initial_synthesis" :: repeat "refine_synthesis" (n - 1)
        /\ sum_list (map chunk_count (processing_log res))
           = total_chunks (metadata res)
        /\ total_chunks (metadata res) = length three_batch_chunks
        /\ (processing_strategy (metadata res) = "single_batch" <-> n = 1%nat)
        /\ (processing_strategy (metadata res) = "multi_batch" <-> (1 < n)%nat)
        /\ response res <> "").
Proof.
  eexists. split; [vm_compute; reflexivity|].
  apply (refine_synthesis_result_consistent gateway_ok ticking CPython_3_12 small_config
           "q" three_batch_chunks true fresh_world).
  vm_compute. reflexivity.
Defined.

Lemma ticking_monotone (k : nat) : ticking k <= ticking (S k).
Proof. unfold ticking. lia. Qed.

Lemma refine_synthesis_times_witness :
  exists res,
    fst (refine_synthesis gateway_ok ticking CPython_3_12 small_config "q"
           three_batch_chunks true fresh_world) = inr res
    /\ Forall (fun r => 0 <= processing_time r
                        /\ processing_time r
                           <= total_processing_time (metadata res))
              (processing_log res).
Proof.
  eexists. split; [vm_compute; reflexivity|].
  apply (refine_synthesis_times gateway_ok ticking CPython_3_12 small_config
           "q" three_batch_chunks true fresh_world _ ticking_monotone).
  vm_compute. reflexivity.
Defined.

(* ===================================================================== *)
(** * Step 2 and the planner *)
(* ===================================================================== *)



(** With the compensated [sum] the shortcut can change the batches: for
    fragments of 30, 35 and 35 words and a budget of 133, [sum] gives
    133.0 and the whole list is the one batch of Step 2, while the
    planner's running sum is 133.00000000000003 and the planner makes two
    batches. *)
Example compensated_sum_shortcut_differs :
  let chunks := [words 30; words 35; words 35] in
  determine_batches CPython_3_12 budget_133_config chunks = [chunks]
  /\ create_batches budget_133_config chunks
     = [[words 30; words 35]; [words 35]]
  /\ determine_batches CPython_3_11 budget_133_config chunks
     = [[words 30; words 35]; [words 35]].
Proof. vm_compute. repeat split; reflexivity. Qed.

(* ===================================================================== *)
(** * extract_chunks_from_json and format_excel_data *)
(* ===================================================================== *)

Lemma bind_fails {A B : Type} (m : PyError + A) (k : A -> PyError + B) :
  fails_on_value m ->
  (forall a, m = inr a -> fails_on_value (k a)) ->
  fails_on_value (ebind m k).
Proof. destruct m as [e|a]; cbn; auto. Qed.

Lemma get_fails (d : Value) (key : string) (default : Value) :
  fails_on_value (get d key default).
Proof. destruct d; cbn; unfold value_error; auto. Qed.

Lemma py_in_fails (key : string) (x : Value) : fails_on_value (py_in key x).
Proof. destruct x; cbn; unfold value_error; auto. Qed.

Lemma py_iter_fails (x : Value) : fails_on_value (py_iter x).
Proof. destruct x; cbn; unfold value_error; auto. Qed.

Lemma strings_of_fails (l : list Value) : fails_on_value (strings_of l).
Proof.
  induction l as [|v l IH]; cbn; [exact I|].
  destruct v; cbn; unfold value_error; auto.
  destruct (strings_of l); cbn in *; auto.
Qed.

Lemma str_join_fails (sep : string) (x : Value) :
  fails_on_value (str_join sep x).
Proof.
  unfold str_join. apply bind_fails; [apply py_iter_fails|]. intros l _.
  apply bind_fails; [apply strings_of_fails|]. intros ss _. exact I.
Qed.

(** [x[key]] after [key in x] does not raise [KeyError]. *)
Lemma getitem_guarded (key : string) (x : Value) :
  py_in key x = inr true -> fails_on_value (getitem x key).
Proof.
  destruct x; cbn; unfold value_error; try (intros _; auto; fail).
  destruct (dict_lookup key items); [intros _; exact I|discriminate].
Qed.

Section ExtractionFacts.
Variable repr : Value -> string.

Lemma format_cells_fails (row : Value) (columns : list string)
    (formatted : string) :
  fails_on_value (format_cells repr row columns formatted).
Proof.
  revert formatted. induction columns as [|col columns IH]; intros formatted.
  - exact I.
  - cbn [format_cells]. apply bind_fails; [apply get_fails|]. intros v _.
    apply IH.
Qed.

Lemma format_rows_fails (data : list Value) (i : nat)
    (columns : list string) (formatted : string) :
  fails_on_value (format_rows repr data i columns formatted).
Proof.
  revert i formatted. induction data as [|row data IH]; intros i formatted.
  - exact I.
  - cbn [format_rows]. apply bind_fails; [apply format_cells_fails|].
    intros f _. apply IH.
Qed.

Lemma format_excel_data_fails (excel_content : Value) :
  fails_on_value (format_excel_data repr excel_content).
Proof.
  unfold format_excel_data.
  apply bind_fails; [apply py_in_fails|]. intros has Hhas.
  destruct has; cbn [negb]; [|exact I].
  apply bind_fails; [apply getitem_guarded, Hhas|]. intros data _.
  apply bind_fails; [apply get_fails|]. intros columns _.
  apply bind_fails.
  { apply bind_fails; [apply py_iter_fails|]. intros l _.
    apply strings_of_fails. }
  intros cols _.
  apply bind_fails; [apply py_iter_fails|]. intros rows _.
  apply format_rows_fails.
Qed.

Lemma extract_results_fails (results chunks : list Value) :
  fails_on_value (extract_results results chunks).
Proof.
  revert chunks. induction results as [|r results IH]; intros chunks.
  - exact I.
  - cbn [extract_results].
    apply bind_fails; [apply py_in_fails|]. intros has Hhas.
    destruct has.
    + apply bind_fails; [apply getitem_guarded, Hhas|]. intros v _. apply IH.
    + apply bind_fails; [apply py_in_fails|]. intros has' Hhas'.
      destruct has'; [|apply IH].
      apply bind_fails; [apply getitem_guarded, Hhas'|]. intros v _. apply IH.
Qed.

Lemma extract_items_fails (items chunks : list Value) :
  fails_on_value (extract_items items chunks).
Proof.
  revert chunks. induction items as [|r items IH]; intros chunks.
  - exact I.
  - cbn [extract_items].
    apply bind_fails; [apply py_in_fails|]. intros has Hhas.
    destruct has; [|apply IH].
    apply bind_fails; [apply getitem_guarded, Hhas|]. intros v _. apply IH.
Qed.

(** X13. Whatever the JSON holds, [extract_chunks_from_json] raises nothing but
    [AttributeError] and [TypeError]: every subscript is taken under its
    [in] test, so no [KeyError] comes out of it. *)
Theorem extract_chunks_from_json_errors (data : Value) :
  match extract_chunks_from_json repr data with
  | inl e => e = AttributeError \/ e = TypeError
  | inr _ => True
  end.
Proof.
  change (fails_on_value (extract_chunks_from_json repr data)).
  unfold extract_chunks_from_json.
  apply bind_fails; [apply get_fails|]. intros response_data _.
  apply bind_fails; [apply get_fails|]. intros detailed_results _.
  apply bind_fails; [apply get_fails|]. intros type1 _.
  destruct (eq_str type1 "pdf_chunk").
  { apply bind_fails; [apply get_fails|]. intros content _.
    destruct (truthy content); exact I. }
  apply bind_fails; [apply get_fails|]. intros type2 _.
  destruct (eq_str type2 "excel_table").
  { apply bind_fails; [apply get_fails|]. intros excel_content _.
    apply bind_fails; [apply py_in_fails|]. intros has _.
    destruct has; [|exact I].
    apply bind_fails; [apply format_excel_data_fails|]. intros f _. exact I. }
  apply bind_fails; [apply py_in_fails|]. intros has_results _.
  destruct has_results.
  { apply bind_fails; [apply get_fails|]. intros results _.
    apply bind_fails; [apply py_iter_fails|]. intros l _.
    apply extract_results_fails. }
  apply bind_fails; [apply py_in_fails|]. intros has_items _.
  destruct has_items.
  { apply bind_fails; [apply get_fails|]. intros items _.
    apply bind_fails; [apply py_iter_fails|]. intros l _.
    apply extract_items_fails. }
  apply bind_fails; [apply py_in_fails|]. intros has_files _.
  destruct has_files; [|exact I].
  apply bind_fails; [apply get_fails|]. intros files _.
  apply bind_fails; [apply str_join_fails|]. intros joined _. exact I.
Qed.

End ExtractionFacts.

Lemma eq_str_false (v : Value) (s : string) :
  v <> VStr s -> eq_str v s = false.
Proof.
  destruct v; cbn; try reflexivity. intros H.
  destruct (String.eqb_spec s0 s); [congruence|reflexivity].
Qed.

Lemma untyped_get (detailed : list (string * Value)) :
  untyped detailed ->
  exists t, get (VDict detailed) "type" VNone = inr t
            /\ eq_str t "pdf_chunk" = false
            /\ eq_str t "excel_table" = false.
Proof.
  intros [Hpdf Hexcel]. cbn.
  destruct (dict_lookup "type" detailed) as [t|].
  - exists t. split; [reflexivity|].
    split; apply eq_str_false; congruence.
  - exists VNone. auto.
Qed.

Lemma detailed_results_of_get (data : Value)
    (detailed : list (string * Value)) :
  detailed_results_of data = Some detailed ->
  exists response_data,
    get data "response" (VDict []) = inr response_data
    /\ get response_data "detailed_results" (VDict []) = inr (VDict detailed).
Proof.
  unfold detailed_results_of.
  destruct (get data "response" (VDict [])) as [|response_data];
    [discriminate|].
  destruct (get response_data "detailed_results" (VDict []))
    as [|v] eqn:Hdet; [discriminate|].
  destruct v; try discriminate.
  intros [= ->]. exists response_data. split; [reflexivity|exact Hdet].
Qed.

Lemma extract_results_dicts (results chunks : list Value) :
  Forall is_dict results ->
  extract_results results chunks
  = inr (chunks ++ omap preview_or_content results).
Proof.
  intros H. revert chunks.
  induction H as [|r results Hr _ IH]; intros chunks.
  - cbn. now rewrite app_nil_r.
  - destruct r as [| | | | | |items]; try contradiction.
    cbn [extract_results py_in getitem ebind omap list_omap preview_or_content].
    destruct (dict_lookup "match_preview" items) as [v|].
    + cbn [ebind]. rewrite IH, <- app_assoc. reflexivity.
    + cbn [ebind].
      destruct (dict_lookup "content" items) as [v|]; cbn [ebind].
      * rewrite IH, <- app_assoc. reflexivity.
      * apply IH.
Qed.

Section ShapeFacts.
Variable repr : Value -> string.

(** X14. Search results: when [detailed_results] has a [results] list of dicts,
    and no [type] handled apart, the chunks are, in the order of the
    results, the [match_preview] of each result that has one, else its
    [content]; a result with neither gives no chunk. *)
Theorem extract_chunks_search_results (data : Value)
    (detailed : list (string * Value)) (results : list Value) :
  detailed_results_of data = Some detailed ->
  untyped detailed ->
  dict_lookup "results" detailed = Some (VList results) ->
  Forall is_dict results ->
  extract_chunks_from_json repr data
  = inr (omap preview_or_content results).
Proof.
  intros Hd Ht Hr Hdicts.
  destruct (detailed_results_of_get data detailed Hd)
    as (response_data & Hresp & Hdet).
  destruct (untyped_get detailed Ht) as (t & Hty & Hpdf & Hexcel).
  unfold extract_chunks_from_json.
  rewrite Hresp. cbn [ebind]. rewrite Hdet. cbn [ebind].
  rewrite Hty. cbn [ebind]. rewrite Hpdf, Hexcel.
  cbn [py_in get]. rewrite Hr. cbn [ebind py_iter].
  apply (extract_results_dicts results [] Hdicts).
Qed.

(** X15. Nothing to extract: when [detailed_results], given or missing, has
    none of the entries [results], [items] and [files] and no [type]
    handled apart, the chunk list is empty and nothing is raised. *)
Theorem extract_chunks_nothing_recognised (data : Value)
    (detailed : list (string * Value)) :
  detailed_results_of data = Some detailed ->
  untyped detailed ->
  dict_lookup "results" detailed = None ->
  dict_lookup "items" detailed = None ->
  dict_lookup "files" detailed = None ->
  extract_chunks_from_json repr data = inr [].
Proof.
  intros Hd Ht Hr Hi Hf.
  destruct (detailed_results_of_get data detailed Hd)
    as (response_data & Hresp & Hdet).
  destruct (untyped_get detailed Ht) as (t & Hty & Hpdf & Hexcel).
  unfold extract_chunks_from_json.
  rewrite Hresp. cbn [ebind]. rewrite Hdet. cbn [ebind].
  rewrite Hty. cbn [ebind]. rewrite Hpdf, Hexcel.
  cbn [py_in]. rewrite Hr, Hi, Hf. reflexivity.
Qed.

End ShapeFacts.

Lemma strings_of_strings (l : list string) :
  strings_of (map VStr l) = inr l.
Proof.
  induction l as [|s l IH]; [reflexivity|].
  cbn [map strings_of]. rewrite IH. reflexivity.
Qed.

Section TableFacts.
Variable repr : Value -> string.

Lemma format_cells_dict (items : list (string * Value))
    (columns : list string) (formatted : string) :
  format_cells repr (VDict items) columns formatted
  = inr (formatted ++ cells_text repr items columns)%string.
Proof.
  revert formatted. induction columns as [|col columns IH]; intros formatted.
  - cbn. now rewrite string_append_nil_r.
  - cbn [format_cells get ebind cells_text]. rewrite IH.
    now rewrite !string_append_assoc.
Qed.

Lemma format_rows_dicts (rows : list (list (string * Value))) (i : nat)
    (columns : list string) (formatted : string) :
  format_rows repr (map VDict rows) i columns formatted
  = inr (formatted ++ rows_text repr columns i rows)%string.
Proof.
  revert i formatted. induction rows as [|items rows IH]; intros i formatted.
  - cbn. now rewrite string_append_nil_r.
  - cbn [map format_rows rows_text]. rewrite format_cells_dict.
    cbn [ebind]. rewrite IH.
    now rewrite !string_append_assoc.
Qed.

(** X16. A table: when [data] is a list of dicts and [columns], given or
    missing, a list of strings, [format_excel_data] does not raise, and its
    text is the line of the column names and then, for each row in order,
    its number counted from 1 and one line per column with the cell of
    that column, [N/A] where the row has none. *)
Theorem format_excel_data_table (items : list (string * Value))
    (rows : list (list (string * Value))) (columns : list string) :
  dict_lookup "data" items = Some (VList (map VDict rows)) ->
  get (VDict items) "columns" (VList []) = inr (VList (map VStr columns)) ->
  format_excel_data repr (VDict items)
  = inr ("Excel Data - Columns: " ++ PyStr.join ", " columns
         ++ newline ++ newline ++ rows_text repr columns 0 rows)%string.
Proof.
  intros Hdata Hcols. unfold format_excel_data.
  cbn [py_in getitem]. rewrite Hdata. cbn [ebind negb].
  rewrite Hcols. cbn [ebind py_iter]. rewrite strings_of_strings.
  cbn [ebind]. rewrite format_rows_dicts.
  now rewrite !string_append_assoc.
Qed.

End TableFacts.

(* ===================================================================== *)
(** * infer_query_from_json *)
(* ===================================================================== *)

Lemma prefix_app (a b : string) : String.prefix a (a ++ b) = true.
Proof.
  induction a as [|c a IH]; [now destruct b|].
  change (String.prefix (String c a) (String c (a ++ b)) = true).
  cbn [String.prefix]. destruct (ascii_dec c c); [exact IH|congruence].
Qed.

Lemma contains_b_leading (a b : string) :
  PyStrOps.contains_b (a ++ b) a = true.
Proof.
  destruct (a ++ b)%string eqn:E; cbn [PyStrOps.contains_b];
    rewrite <- E, prefix_app; reflexivity.
Qed.

Lemma replace_aux_skip (old new pre rest : string) :
  PyStrOps.replace_aux old new (pre ++ rest) (String.length pre)
  = PyStrOps.replace_aux old new rest 0.
Proof.
  induction pre as [|c pre IH]; [reflexivity|].
  change (PyStrOps.replace_aux old new (String c (pre ++ rest))
            (S (String.length pre))
          = PyStrOps.replace_aux old new rest 0).
  exact IH.
Qed.

Lemma replace_aux_absent (old new s : string) :
  PyStrOps.contains_b s old = false -> PyStrOps.replace_aux old new s 0 = s.
Proof.
  induction s as [|c s IH]; [reflexivity|].
  cbn [PyStrOps.contains_b PyStrOps.replace_aux].
  intros H. apply orb_false_iff in H as [Hp Hs].
  rewrite Hp, (IH Hs). reflexivity.
Qed.

(** Removing a leading [old] and going on in what follows it. *)
Lemma replace_leading (c : ascii) (old rest : string) :
  PyStrOps.replace (String c old) "" (String c old ++ rest)
  = PyStrOps.replace (String c old) "" rest.
Proof.
  unfold PyStrOps.replace.
  change (String c old ++ rest)%string with (String c (old ++ rest)).
  cbn [PyStrOps.replace_aux].
  change (String c (old ++ rest)) with (String c old ++ rest)%string.
  rewrite prefix_app.
  change (String.length (String c old) - 1)%nat
    with (String.length old - 0)%nat.
  rewrite Nat.sub_0_r. apply replace_aux_skip.
Qed.

Lemma strip_leading_space (c : ascii) (s : string) :
  PyStr.isspace c = true ->
  PyStrOps.strip (String c s) = PyStrOps.strip s.
Proof.
  intros H. unfold PyStrOps.strip.
  cbn [list_ascii_of_string PyStrOps.lstrip_list]. now rewrite H.
Qed.

(** X17. The query of a test record is read back: when [expected] is the
    marker [Natural language:], a space and a query that has no blank at
    either end and does not hold the marker, the inferred query is that
    query, whatever [test_name] is. *)
Theorem infer_query_round_trip (items test_params : list (string * Value))
    (q : string) :
  dict_lookup "expected" items
  = Some (VStr (natural_language ++ " " ++ q)%string) ->
  get (VDict items) "test_params" (VDict []) = inr (VDict test_params) ->
  PyStrOps.contains_b q natural_language = false ->
  PyStrOps.strip q = q ->
  infer_query_from_json (VDict items) = inr q.
Proof.
  intros Hexp Hparams Hq Hstrip. unfold infer_query_from_json.
  cbn [get] in *. rewrite Hexp. cbn [ebind].
  injection Hparams as Hparams. rewrite Hparams. cbn [ebind].
  change (truthy (VStr (natural_language ++ " " ++ q)%string)) with true.
  cbn [py_in get ebind]. rewrite contains_b_leading. cbn [ebind]. f_equal.
  unfold natural_language at 1 2. rewrite replace_leading.
  fold natural_language.
  change (" " ++ q)%string with (String " " q).
  unfold PyStrOps.replace.
  rewrite replace_aux_absent.
  - rewrite strip_leading_space; [exact Hstrip|reflexivity].
  - cbn [PyStrOps.contains_b]. rewrite Hq. reflexivity.
Qed.

Lemma infer_query_round_trip_witness :
  infer_query_from_json
    (VDict [("test_name", VStr "Search content test");
            ("expected",
             VStr "Natural language: what are the capital requirements")])
  = inr "what are the capital requirements".
Proof.
  apply (infer_query_round_trip _ []); reflexivity.
Defined.

(* ===================================================================== *)
(** * Construction and the entry points around a run *)
(* ===================================================================== *)

Lemma chunks_per_batch_cases (cfg : RefineConfig) :
  (average_chunk_tokens cfg = 0
   /\ chunks_per_batch cfg = inl ZeroDivisionError)
  \/ (average_chunk_tokens cfg <> 0
      /\ exists limit, chunks_per_batch cfg = inr limit).
Proof.
  unfold chunks_per_batch, floordiv.
  destruct (Z.eqb_spec (average_chunk_tokens cfg) 0); [left|right]; eauto.
Qed.

Lemma or_else_cases (a b : option string) :
  (exists c k, or_else a b = Some (String c k))
  \/ (or_else a b = None \/ or_else a b = Some "").
Proof.
  unfold or_else. destruct a as [[|c k]|]; eauto; destruct b as [[|c k]|]; eauto.
Qed.

(** X18. How construction ends: [ValueError] exactly when neither the argument
    nor the environment gives a key that is not empty; otherwise
    [ZeroDivisionError] exactly when the configuration has
    [average_chunk_tokens] zero; otherwise a tool, which holds that key,
    the configuration given or else the default one, and as model name
    the [model_name] of its configuration. *)
Theorem init_outcome (getenv key_given : option string)
    (config : option RefineConfig) :
  let key := or_else key_given getenv in
  let cfg := match config with Some c => c | None => default_config end in
  let keyless := key = None \/ key = Some "" in
  (__init__ getenv key_given config = inl ValueError <-> keyless)
  /\ (__init__ getenv key_given config = inl (Exc ZeroDivisionError)
      <-> ~ keyless /\ average_chunk_tokens cfg = 0)
  /\ (forall tool,
        __init__ getenv key_given config = inr tool
        <-> ~ keyless /\ constructible cfg
            /\ tool = {| api_key := default "" key;
                         tool_model_name := model_name cfg;
                         tool_config := cfg |}).
Proof.
  intros key cfg keyless. unfold __init__. fold key.
  assert (Hmodel : match config with
                   | Some c => model_name c
                   | None => "gemini-1.5-pro"
                   end = model_name cfg) by now destruct config.
  rewrite Hmodel. clear Hmodel.
  change (match config with Some c => c | None => default_config end)
    with cfg.
  unfold constructible.
  destruct (or_else_cases key_given getenv) as [(c & k & Hk)|Hk];
    fold key in Hk.
  - assert (Hno : ~ keyless)
      by (unfold keyless; rewrite Hk; intros [?|?]; discriminate).
    rewrite Hk. cbn [default from_option].
    destruct (chunks_per_batch_cases cfg) as [[Hz ->]|[Hz [limit ->]]].
    + split; [split; [discriminate|tauto]|].
      split; [tauto|].
      intros tool. split; [discriminate|tauto].
    + split; [split; [discriminate|tauto]|].
      split; [split; [discriminate|tauto]|].
      intros tool. split.
      * intros [= <-]. auto.
      * intros (_ & _ & ->). reflexivity.
  - assert (Hv : match key with
                 | Some (String _ _ as key0) =>
                     match chunks_per_batch cfg with
                     | inl e => inl (Exc e)
                     | inr _ =>
                         inr {| api_key := key0;
                                tool_model_name := model_name cfg;
                                tool_config := cfg |}
                     end
                 | _ => inl ValueError
                 end = inl ValueError)
      by (destruct Hk as [-> | ->]; reflexivity).
    rewrite Hv. assert (Hkl : keyless) by exact Hk.
    split; [tauto|].
    split; [split; [discriminate|tauto]|].
    intros tool. split; [discriminate|tauto].
Qed.

Lemma all_strings_strings (l : list string) :
  all_strings (map VStr l) = Some l.
Proof.
  induction l as [|s l IH]; [reflexivity|].
  cbn [map all_strings]. now rewrite IH.
Qed.


Section EntryFacts.

Context {G : Type}.
Variable generate_content :
  G -> string -> Float64.float -> Z -> GenOutcome * G.
Variable now : nat -> Z.
Variable py : Interpreter.
Variable getenv : option string.
Variable json_load : string -> option Value.
Variable repr : Value -> string.

(** A run that has a batch to start from, with a configuration a tool can
    be built with: it returns. *)
Lemma run_returns (cfg : RefineConfig) (q : string) (chunks : list string)
    (prioritize : bool) (w : @World G) :
  constructible cfg ->
  ~ (chunks = [] /\ max_content_tokens cfg < 0) ->
  exists res ps w',
    refine_synthesis generate_content now py cfg q chunks prioritize w
    = (inr res, w')
    /\ response res <> ""
    /\ prompts_sent w' = prompts_sent w ++ ps
    /\ (1 <= length ps <= Nat.max 1 (length chunks))%nat
    /\ total_chunks (metadata res) = length chunks
    /\ (processing_strategy (metadata res) = "single_batch"
        \/ processing_strategy (metadata res) = "multi_batch").
Proof.
  intros Hc Hne.
  set (chunks' := if prioritize then prioritize_chunks chunks q else chunks).
  pose proof (determine_batches_length py cfg chunks') as Hlen.
  destruct (determine_batches py cfg chunks') as [|first rest] eqn:Hb.
  { exfalso. apply Hne. apply determine_batches_nil_iff in Hb as [Hnil Hneg].
    split; [|exact Hneg]. unfold chunks' in Hnil.
    now apply prioritized_nil_iff in Hnil. }
  destruct (run_over_batches generate_content now py cfg q chunks prioritize w
              first rest Hb)
    as (resp & log & ps & w' & Hrun & Hsent & _ & _ & _ & _ & _ & Hcarry
        & Hresp).
  rewrite (chunks_per_batch_constructible cfg Hc) in Hrun.
  eexists _, ps, w'. split; [exact Hrun|].
  cbn [response metadata total_chunks processing_strategy].
  split; [exact Hresp|]. split; [exact Hsent|].
  apply Forall2_length in Hcarry.
  assert (Hk : length chunks' = length chunks)
    by apply Permutation_length, prioritized_perm.
  fold chunks'. rewrite Hk in Hlen. rewrite Hk.
  cbn [length] in Hcarry, Hlen.
  split; [lia|]. split; [reflexivity|].
  destruct (S (length rest) =? 1)%nat; auto.
Qed.

(** X19. [simple_refine_synthesis]: without a key that is not empty, from the
    argument or the environment, it raises [ValueError] and leaves the
    service alone; with one it does not raise, whatever the fragments and
    the answers of the service: it returns a string that is not empty,
    after at least one call and at most one call per fragment. *)
Theorem simple_refine_synthesis_outcome (q : string) (chunks : list string)
    (key_given : option string) (w : @World G) :
  let out :=
    simple_refine_synthesis generate_content now py getenv q chunks key_given w in
  match or_else key_given getenv with
  | Some (String _ _) =>
      exists answer ps,
        fst out = inr answer
        /\ answer <> ""
        /\ prompts_sent (snd out) = prompts_sent w ++ ps
        /\ (1 <= length ps <= Nat.max 1 (length chunks))%nat
  | _ => out = (inl ValueError, w)
  end.
Proof.
  intros out. unfold out, simple_refine_synthesis, __init__.
  destruct (or_else key_given getenv) as [[|c k]|]; try reflexivity.
  change (chunks_per_batch default_config) with (@inr PyExc Z 1877).
  cbn [tool_config].
  destruct (run_returns default_config q chunks true w)
    as (res & ps & w' & Hrun & Hresp & Hsent & Hlen & _).
  { exact default_config_constructible. }
  { intros [_ H]. vm_compute in H. discriminate. }
  rewrite Hrun. exists (response res), ps. auto.
Qed.



(** X22. From a file to an answer: with a key, and a file of search results
    whose chunks are all text, [process_json_file_simple] does not raise;
    it returns a string that is not empty, after at least one call to the
    service and at most one call per chunk. *)
Theorem process_json_file_simple_search_results (path : string)
    (data : Value) (detailed : list (string * Value)) (results : list Value)
    (l : list string) (c : ascii) (q : string) (key_given : option string)
    (k0 : ascii) (key : string) (w : @World G) :
  or_else key_given getenv = Some (String k0 key) ->
  json_load path = Some data ->
  detailed_results_of data = Some detailed ->
  untyped detailed ->
  dict_lookup "results" detailed = Some (VList results) ->
  Forall is_dict results ->
  omap preview_or_content results = map VStr l ->
  exists answer ps w',
    process_json_file_simple generate_content now py getenv json_load repr
      path (Some (String c q)) key_given w
    = (inr answer, w')
    /\ answer <> ""
    /\ prompts_sent w' = prompts_sent w ++ ps
    /\ (1 <= length ps <= Nat.max 1 (length l))%nat.
Proof.
  intros Hkey Hload Hd Ht Hr Hdicts Htext.
  destruct (detailed_results_of_get data detailed Hd)
    as (response_data & Hresp & Hdet).
  destruct (untyped_get detailed Ht) as (t & Hty & Hpdf & Hexcel).
  unfold process_json_file_simple, __init__. rewrite Hkey.
  change (chunks_per_batch default_config) with (@inr PyExc Z 1877).
  cbn [tool_config]. unfold process_json_file. rewrite Hload.
  unfold extract_chunks_from_json.
  rewrite Hresp. cbn [ebind]. rewrite Hdet. cbn [ebind].
  rewrite Hty. cbn [ebind]. rewrite Hpdf, Hexcel.
  cbn [py_in get]. rewrite Hr. cbn [ebind py_iter].
  rewrite (extract_results_dicts results [] Hdicts). cbn [app].
  rewrite Htext. unfold refine_synthesis_values.
  rewrite all_strings_strings.
  destruct (run_returns default_config (String c q) l true w)
    as (res & ps & w' & Hrun & Hans & Hsent & Hlen & _).
  { exact default_config_constructible. }
  { intros [_ H]. vm_compute in H. discriminate. }
  rewrite Hrun. exists (response res), ps, w'. auto.
Qed.

End EntryFacts.

Section PhaseFacts.

Context {G : Type}.
Variable generate_content :
  G -> string -> Float64.float -> Z -> GenOutcome * G.
Variable now : nat -> Z.
Variable py : Interpreter.

(** X23. [_synthesis_phase] on chunks of text, for a configuration a tool can
    be built with: it does not raise, whatever the budget; it appends one
    entry to the log; it calls the service exactly when there is a chunk,
    and otherwise gives its fixed answer and logs the strategy [unknown];
    the response is never the empty string. *)
Theorem synthesis_phase_outcome (cfg : RefineConfig) (q : string)
    (l : list string) (log : list PhaseRecord) (w : @World G) :
  constructible cfg ->
  exists o entry w',
    _synthesis_phase generate_content now py cfg q (map VStr l) log w
    = (inr (o, log ++ [entry]), w')
    /\ outcome_response o <> ""
    /\ input_chunks entry = length l
    /\ ((exists res, o = Performed res) <-> l <> [])
    /\ (prompts_sent w' = prompts_sent w <-> l = [])
    /\ (synthesis_strategy entry = "unknown" <-> l = []).
Proof.
  intros Hc. unfold _synthesis_phase.
  destruct l as [|s l].
  - cbn [map]. do 3 eexists. split; [reflexivity|].
    cbn [outcome_response input_chunks synthesis_strategy strategy_of
         outcome_metadata prompts_sent length].
    split; [discriminate|]. split; [reflexivity|].
    split; [split; [intros [res ?]; discriminate|congruence]|].
    split; tauto.
  - change (map VStr (s :: l)) with (VStr s :: map VStr l) at 1.
    cbv beta iota.
    unfold refine_synthesis_values.
    change (VStr s :: map VStr l) with (map VStr (s :: l)).
    rewrite all_strings_strings.
    match goal with
    | |- context [refine_synthesis _ _ _ _ _ _ _ ?w1] =>
        destruct (run_returns generate_content now py cfg q (s :: l) true w1 Hc)
          as (res & ps & w' & Hrun & Hresp & Hsent & Hlen & _ & Hstrat)
    end.
    { intros [? _]. discriminate. }
    rewrite Hrun. do 3 eexists. split; [reflexivity|].
    cbn [outcome_response input_chunks synthesis_strategy strategy_of
         outcome_metadata prompts_sent length].
    split; [exact Hresp|]. split; [now rewrite length_map|].
    split; [split; [discriminate|eauto]|].
    split.
    + split; [|discriminate]. rewrite Hsent. intros H.
      apply (f_equal (@length string)) in H.
      rewrite length_app in H. cbn [prompts_sent] in H. lia.
    + split; [|discriminate].
      destruct Hstrat as [-> | ->]; discriminate.
Qed.

End PhaseFacts.

(* ===================================================================== *)
(** * The properties above on concrete values *)
(* ===================================================================== *)

(** The preview of the first hit, the content of the second, nothing of
    the third. *)
Lemma extract_chunks_search_results_witness :
  extract_chunks_from_json repr_scalar search_data
  = inr [VStr "capital ratio"; VStr "buffers apply"].
Proof.
  apply (extract_chunks_search_results repr_scalar search_data
           [("results",
             VList [VDict [("match_preview", VStr "capital ratio");
                           ("content", VStr "the whole page")];
                    VDict [("content", VStr "buffers apply")];
                    VDict [("score", VInt 3)]])]
           [VDict [("match_preview", VStr "capital ratio");
                   ("content", VStr "the whole page")];
            VDict [("content", VStr "buffers apply")];
            VDict [("score", VInt 3)]]).
  - reflexivity.
  - split; discriminate.
  - reflexivity.
  - repeat constructor.
Defined.

Lemma extract_chunks_nothing_recognised_witness :
  extract_chunks_from_json repr_scalar bare_data = inr [].
Proof.
  apply (extract_chunks_nothing_recognised repr_scalar bare_data []);
    first [reflexivity | split; discriminate].
Defined.

Lemma format_excel_data_table_witness :
  format_excel_data repr_scalar (VDict ratio_table)
  = inr "Excel Data - Columns: name, ratio

Row 1:
  name: CET1
  ratio: 7

Row 2:
  name: Tier 1
  ratio: N/A

".
Proof.
  apply (format_excel_data_table repr_scalar ratio_table
           [[("name", VStr "CET1"); ("ratio", VInt 7)];
            [("name", VStr "Tier 1")]]
           ["name"; "ratio"]); reflexivity.
Defined.



(** Three batches of text under the budget of three tokens. *)
Lemma synthesis_phase_outcome_witness :
  exists o entry w',
    _synthesis_phase gateway_ok ticking CPython_3_12 small_config "q"
      (map VStr three_batch_chunks) [] fresh_world
    = (inr (o, [] ++ [entry]), w')
    /\ outcome_response o <> ""
    /\ input_chunks entry = length three_batch_chunks
    /\ ((exists res, o = Performed res) <-> three_batch_chunks <> [])
    /\ (prompts_sent w' = prompts_sent fresh_world <-> three_batch_chunks = [])
    /\ (synthesis_strategy entry = "unknown" <-> three_batch_chunks = []).
Proof.
  exact (synthesis_phase_outcome gateway_ok ticking CPython_3_12 small_config
           "q" three_batch_chunks [] fresh_world small_config_constructible).
Defined.

(** The two chunks of the search result, under the default budget. *)
Lemma process_json_file_simple_search_results_witness :
  exists answer ps w',
    process_json_file_simple gateway_ok ticking CPython_3_12 None
      (one_file "hits.json" search_data) repr_scalar
      "hits.json" (Some "capital ratio") (Some "key-123") fresh_world
    = (inr answer, w')
    /\ answer <> ""
    /\ prompts_sent w' = prompts_sent fresh_world ++ ps
    /\ (1 <= length ps <= Nat.max 1 (length ["capital ratio"; "buffers apply"]))%nat.
Proof.
  apply (process_json_file_simple_search_results gateway_ok ticking CPython_3_12 None
           (one_file "hits.json" search_data) repr_scalar
           "hits.json" search_data
           [("results",
             VList [VDict [("match_preview", VStr "capital ratio");
                           ("content", VStr "the whole page")];
                    VDict [("content", VStr "buffers apply")];
                    VDict [("score", VInt 3)]])]
           [VDict [("match_preview", VStr "capital ratio");
                   ("content", VStr "the whole page")];
            VDict [("content", VStr "buffers apply")];
            VDict [("score", VInt 3)]]
           ["capital ratio"; "buffers apply"] "c" "apital ratio"
           (Some "key-123") "k" "ey-123");
    first [reflexivity | split; discriminate | repeat constructor].
Defined.
